(** * Airflow metadata backup and restore: a shallow embedding

    The repository consists of two flat Python scripts,
    [airflow_backup.py] and [airflow_restore.py].  They talk to three
    collaborators: the [json] module, the [datetime] module and Airflow's
    ORM (SQLAlchemy sessions over the metadata database).  The scripts are
    embedded as functions in a state-and-exception monad over an explicit
    world (database tables, console output, pending store outages); the
    collaborators are modelled in the first half of the file, each with the
    behaviour the scripts rely on. *)

From Stdlib Require Import ZArith String Ascii List Bool Lia.
From stdpp Require Import gmap strings list pretty.

Set Warnings "-register-all".
Open Scope string_scope.

(** ** Python values *)

Module Py.

Local Open Scope Z_scope.

(** What [json.load] returns.  Numbers are integers; JSON floats are outside
    the model.  A [JDict] keeps the insertion order of its keys, which is the
    order [items()] iterates in. *)
Inductive json : Type :=
| JNull
| JBool (b : bool)
| JInt (n : Z)
| JStr (s : string)
| JList (l : list json)
| JDict (d : list (string * json)).

(** [datetime.datetime]: the time zone is the UTC offset in microseconds. *)
Record datetime : Type := mk_datetime {
  dt_year : Z; dt_month : Z; dt_day : Z;
  dt_hour : Z; dt_minute : Z; dt_second : Z; dt_microsecond : Z;
  dt_utcoffset : option Z
}.

(** What an attribute of an ORM object, or a slot of a record dict, can hold:
    a JSON value, a [datetime] (after coercion) or a [timedelta] (a native
    schedule), the latter normalised as days, seconds, microseconds. *)
Inductive value : Type :=
| VJson (j : json)
| VDatetime (t : datetime)
| VTimedelta (days seconds microseconds : Z).

Definition VNone : value := VJson JNull.
Definition VStr (s : string) : value := VJson (JStr s).

(** The exceptions that reach the top level of the scripts. *)
Inductive exn : Type :=
| JSONDecodeError
| AttributeError
| TypeError
| KeyError (k : string)
| ValueError
| IntegrityError
| ProgrammingError
| OperationalError.

(** A Python computation returns a value or raises. *)
Inductive res (A : Type) : Type :=
| Ok (a : A)
| Raise (e : exn).
Arguments Ok {A} a.
Arguments Raise {A} e.

(** *** Dicts: association lists in insertion order *)

Fixpoint dict_get {A} (k : string) (d : list (string * A)) : option A :=
  match d with
  | [] => None
  | (k', v) :: d' => if String.eqb k k' then Some v else dict_get k d'
  end.

(** [d[k] = v]: replaces in place, appends a new key at the end. *)
Fixpoint dict_set {A} (k : string) (v : A) (d : list (string * A)) : list (string * A) :=
  match d with
  | [] => [(k, v)]
  | (k', v') :: d' =>
      if String.eqb k k' then (k', v) :: d' else (k', v') :: dict_set k v d'
  end.

Definition dict_keys {A} (d : list (string * A)) : list string := map fst d.

(** *** Truthiness, subscripting, iteration *)

(** [bool(v)] for a JSON value. *)
Definition truthy (j : json) : bool :=
  match j with
  | JNull => false
  | JBool b => b
  | JInt n => negb (n =? 0)
  | JStr s => negb (String.eqb s EmptyString)
  | JList l => match l with [] => false | _ => true end
  | JDict d => match d with [] => false | _ => true end
  end.

(** [bool(v)] for a slot value; datetimes are always true, a timedelta is
    true unless it is zero. *)
Definition truthy_value (v : value) : bool :=
  match v with
  | VJson j => truthy j
  | VDatetime _ => true
  | VTimedelta d s us => negb ((d =? 0) && (s =? 0) && (us =? 0))
  end.

(** [c[k]] with a string subscript: only a dict supports it. *)
Definition getitem (c : json) (k : string) : res json :=
  match c with
  | JDict d => match dict_get k d with Some v => Ok v | None => Raise (KeyError k) end
  | _ => Raise TypeError
  end.

Definition chars (s : string) : list json :=
  map (fun a => JStr (String a EmptyString)) (list_ascii_of_string s).

(** [for c in v]: a list yields its elements, a dict its keys, a string its
    characters; nothing else is iterable. *)
Definition iter (v : json) : res (list json) :=
  match v with
  | JList l => Ok l
  | JDict d => Ok (map JStr (dict_keys d))
  | JStr s => Ok (chars s)
  | _ => Raise TypeError
  end.

(** [v.items()]: only a dict has the method. *)
Definition items (v : json) : res (list (string * json)) :=
  match v with
  | JDict d => Ok d
  | _ => Raise AttributeError
  end.

(** [**c]: the keyword arguments a dict unpacks to; each slot holds the JSON
    value it was loaded with. *)
Definition kwargs (c : json) : res (list (string * value)) :=
  match c with
  | JDict d => Ok (map (fun kv => (fst kv, VJson (snd kv))) d)
  | _ => Raise TypeError
  end.

(** [d[k]] on a record whose slots hold values. *)
Definition slot (d : list (string * value)) (k : string) : res value :=
  match dict_get k d with Some v => Ok v | None => Raise (KeyError k) end.

(** *** [str()] and [repr()] *)

Definition dquote : ascii := ascii_of_nat 34.
Definition squote : ascii := ascii_of_nat 39.
Definition bslash : ascii := ascii_of_nat 92.

Fixpoint has_char (a : ascii) (s : string) : bool :=
  match s with
  | EmptyString => false
  | String b s' => Ascii.eqb a b || has_char a s'
  end.

Definition hex_digit (n : nat) : ascii :=
  ascii_of_nat (if (n <? 10)%nat then 48 + n else 87 + n)%nat.

(** One character of [repr(str)] with quote [q].  Control characters are
    escaped; bytes above 127 (UTF-8 encoded printable characters) are kept. *)
Definition repr_char (q a : ascii) : string :=
  let n := nat_of_ascii a in
  if Ascii.eqb a bslash then String bslash (String bslash EmptyString)
  else if Ascii.eqb a q then String bslash (String q EmptyString)
  else if (n =? 10)%nat then String bslash "n"
  else if (n =? 13)%nat then String bslash "r"
  else if (n =? 9)%nat then String bslash "t"
  else if ((n <? 32) || (n =? 127))%nat then
    String bslash (String "x" (String (hex_digit (n / 16)) (String (hex_digit (n mod 16)) EmptyString)))
  else String a EmptyString.

Fixpoint repr_chars (q : ascii) (s : string) : string :=
  match s with
  | EmptyString => EmptyString
  | String a s' => repr_char q a +:+ repr_chars q s'
  end.

(** [repr(s)]: single quotes, unless the string has a single quote and no
    double quote. *)
Definition repr_str (s : string) : string :=
  let q := if has_char squote s && negb (has_char dquote s) then dquote else squote in
  String q (repr_chars q s +:+ String q EmptyString).

Fixpoint join (sep : string) (l : list string) : string :=
  match l with
  | [] => EmptyString
  | [x] => x
  | x :: l' => x +:+ sep +:+ join sep l'
  end.

Fixpoint repr (j : json) : string :=
  match j with
  | JNull => "None"
  | JBool true => "True"
  | JBool false => "False"
  | JInt n => pretty n
  | JStr s => repr_str s
  | JList l => "[" +:+ join ", " (map repr l) +:+ "]"
  | JDict d =>
      "{" +:+ join ", " (map (fun kv => repr_str (fst kv) +:+ ": " +:+ repr (snd kv)) d) +:+ "}"
  end.

(** [str(j)]: a string is itself, everything else prints as its [repr]. *)
Definition str_json (j : json) : string :=
  match j with
  | JStr s => s
  | _ => repr j
  end.

(** Decimal rendering left-padded with zeros, as ["%02d"] and the like. *)
Definition zpad (width : nat) (n : Z) : string :=
  let s := pretty n in
  String.concat EmptyString (replicate (width - String.length s)%nat "0") +:+ s.

Definition str_offset (off : Z) : string :=
  let a := Z.abs off in
  let us := a mod 1000000 in
  let secs := a / 1000000 in
  (if off <? 0 then "-" else "+") +:+
  zpad 2 (secs / 3600) +:+ ":" +:+ zpad 2 ((secs / 60) mod 60) +:+
  (if (secs mod 60 =? 0) && (us =? 0) then EmptyString
   else ":" +:+ zpad 2 (secs mod 60) +:+
        (if us =? 0 then EmptyString else "." +:+ zpad 6 us)).

(** [str(datetime)] is [isoformat(sep=' ')]. *)
Definition str_datetime (t : datetime) : string :=
  zpad 4 (dt_year t) +:+ "-" +:+ zpad 2 (dt_month t) +:+ "-" +:+ zpad 2 (dt_day t) +:+ " " +:+
  zpad 2 (dt_hour t) +:+ ":" +:+ zpad 2 (dt_minute t) +:+ ":" +:+ zpad 2 (dt_second t) +:+
  (if dt_microsecond t =? 0 then EmptyString else "." +:+ zpad 6 (dt_microsecond t)) +:+
  match dt_utcoffset t with None => EmptyString | Some off => str_offset off end.

(** [str(timedelta)]. *)
Definition str_timedelta (days seconds us : Z) : string :=
  (if days =? 0 then EmptyString
   else pretty days +:+ " day" +:+ (if Z.abs days =? 1 then EmptyString else "s") +:+ ", ") +:+
  pretty (seconds / 3600) +:+ ":" +:+ zpad 2 ((seconds / 60) mod 60) +:+ ":" +:+
  zpad 2 (seconds mod 60) +:+
  (if us =? 0 then EmptyString else "." +:+ zpad 6 us).

Definition str (v : value) : string :=
  match v with
  | VJson j => str_json j
  | VDatetime t => str_datetime t
  | VTimedelta d s us => str_timedelta d s us
  end.

(** *** [datetime.fromisoformat]

    The parser follows CPython 3.7 to 3.10 (the versions Airflow 2.1.0 runs
    on): [YYYY-MM-DD], optionally followed by one separator character and
    [HH[:MM[:SS[.fff[fff]]]]] with an optional [+HH:MM[:SS[.ffffff]]] offset.
    Numeric fields are plain ASCII digits; strings are byte strings, so the
    separator is one byte. *)

Definition digit_of (a : ascii) : option Z :=
  let n := Z.of_nat (nat_of_ascii a) in
  if (48 <=? n) && (n <=? 57) then Some (n - 48) else None.

Fixpoint digits_go (s : string) (acc : Z) : option Z :=
  match s with
  | EmptyString => Some acc
  | String a s' =>
      match digit_of a with
      | Some d => digits_go s' (10 * acc + d)
      | None => None
      end
  end.

Definition parse_int (s : string) : option Z :=
  match s with
  | EmptyString => None
  | _ => digits_go s 0
  end.

(** [s[i:j]] *)
Definition slice (i j : nat) (s : string) : string := String.substring i (j - i) s.

(** The two-digit field at [s[i:i+2]]. *)
Definition field2 (i : nat) (s : string) : option Z :=
  if (i + 2 <=? String.length s)%nat then parse_int (slice i (i + 2) s) else None.

Definition char_is (i : nat) (a : ascii) (s : string) : bool :=
  match String.get i s with
  | Some b => Ascii.eqb a b
  | None => false
  end.

Definition is_leap (y : Z) : bool :=
  (y mod 4 =? 0) && (negb (y mod 100 =? 0) || (y mod 400 =? 0)).

Definition days_in_month (y m : Z) : Z :=
  if m =? 2 then (if is_leap y then 29 else 28)
  else if (m =? 4) || (m =? 6) || (m =? 9) || (m =? 11) then 30
  else 31.

Definition parse_isoformat_date (d : string) : option (Z * Z * Z) :=
  match parse_int (slice 0 4 d), parse_int (slice 5 7 d), parse_int (slice 8 10 d) with
  | Some y, Some m, Some dd =>
      if (String.length d =? 10)%nat && char_is 4 "-" d && char_is 7 "-" d
      then Some (y, m, dd) else None
  | _, _, _ => None
  end.

Definition parse_hh_mm_ss_ff (t : string) : option (Z * Z * Z * Z) :=
  let len := String.length t in
  match field2 0 t with
  | None => None
  | Some hh =>
    if (len =? 2)%nat then Some (hh, 0, 0, 0)
    else if negb (char_is 2 ":" t) then None
    else match field2 3 t with
    | None => None
    | Some mm =>
      if (len =? 5)%nat then Some (hh, mm, 0, 0)
      else if negb (char_is 5 ":" t) then None
      else match field2 6 t with
      | None => None
      | Some ss =>
        if (len =? 8)%nat then Some (hh, mm, ss, 0)
        else if negb (char_is 8 "." t) then None
        else match parse_int (slice 9 len t) with
        | None => None
        | Some f =>
          if (len - 9 =? 3)%nat then Some (hh, mm, ss, f * 1000)
          else if (len - 9 =? 6)%nat then Some (hh, mm, ss, f)
          else None
        end
      end
    end
  end.

(** [tstr.find('-') + 1 or tstr.find('+') + 1]: the position after the first
    minus sign, else after the first plus sign, else 0. *)
Definition tz_pos (t : string) : nat :=
  match String.index 0 "-" t with
  | Some i => S i
  | None => match String.index 0 "+" t with Some i => S i | None => 0 end
  end.

Definition parse_isoformat_time (t : string) : option (Z * Z * Z * Z * option Z) :=
  let len := String.length t in
  if (len <? 2)%nat then None else
  let p := tz_pos t in
  let timestr := if (0 <? p)%nat then slice 0 (p - 1) t else t in
  match parse_hh_mm_ss_ff timestr with
  | None => None
  | Some tc =>
    if (p =? 0)%nat then Some (tc, None) else
    let tzstr := slice p len t in
    let n := String.length tzstr in
    if negb ((n =? 5) || (n =? 8) || (n =? 15))%nat then None else
    match parse_hh_mm_ss_ff tzstr with
    | None => None
    | Some (h, m, s, us) =>
      let off := ((h * 3600 + m * 60 + s) * 1000000 + us) in
      let off := if char_is (p - 1) "-" t then - off else off in
      if (-86400000000 <? off) && (off <? 86400000000) then Some (tc, Some off) else None
    end
  end.

(** The range checks of the [datetime] constructor. *)
Definition valid_datetime (t : datetime) : bool :=
  (1 <=? dt_year t) && (dt_year t <=? 9999) &&
  (1 <=? dt_month t) && (dt_month t <=? 12) &&
  (1 <=? dt_day t) && (dt_day t <=? days_in_month (dt_year t) (dt_month t)) &&
  (0 <=? dt_hour t) && (dt_hour t <=? 23) &&
  (0 <=? dt_minute t) && (dt_minute t <=? 59) &&
  (0 <=? dt_second t) && (dt_second t <=? 59) &&
  (0 <=? dt_microsecond t) && (dt_microsecond t <=? 999999).

Definition parse_isoformat (s : string) : option datetime :=
  match parse_isoformat_date (slice 0 10 s) with
  | None => None
  | Some (y, m, d) =>
    let tstr := slice 11 (String.length s) s in
    let tm := match tstr with
              | EmptyString => Some (0, 0, 0, 0, None)
              | _ => parse_isoformat_time tstr
              end in
    match tm with
    | None => None
    | Some (hh, mm, ss, us, tz) =>
      let t := mk_datetime y m d hh mm ss us tz in
      if valid_datetime t then Some t else None
    end
  end.

(** Which strings [datetime.fromisoformat] accepts depends on the
    interpreter the script runs on (later versions accept more of ISO 8601
    than the format above), so the scripts are embedded for any interpreter:
    it is known by its parser, and nothing more is assumed of it. *)
Class Interpreter : Type := {
  isoformat_parser : string -> option datetime
}.

(** CPython 3.7 to 3.10. *)
Definition cpython37 : Interpreter := {| isoformat_parser := parse_isoformat |}.

(** [datetime.fromisoformat(v)]: [TypeError] unless [v] is a string,
    [ValueError] on a string the interpreter's parser rejects. *)
Definition fromisoformat `{Interpreter} (v : value) : res datetime :=
  match v with
  | VJson (JStr s) => match isoformat_parser s with Some t => Ok t | None => Raise ValueError end
  | _ => Raise TypeError
  end.

End Py.


(** ** The state-and-exception monad

    A statement runs on a state and either completes or raises; the state it
    leaves behind survives the exception (what was printed stays printed). *)

Module Eff.
Import Py.

Definition M (S A : Type) : Type := S -> res A * S.

#[global] Instance M_ret {S} : MRet (M S) := fun A a s => (Ok a, s).

#[global] Instance M_bind {S} : MBind (M S) := fun A B f m s =>
  match m s with
  | (Ok a, s') => f a s'
  | (Raise e, s') => (Raise e, s')
  end.

(** An expression that may raise, evaluated inside a statement. *)
Definition lift {S A} (x : res A) : M S A := fun s => (x, s).

(** [for x in l: body] *)
Fixpoint for_each {S A} (body : A -> M S unit) (l : list A) : M S unit :=
  match l with
  | [] => mret tt
  | x :: l' => body x ;; for_each body l'
  end.

(** States that carry the console: the lines printed so far, and [print]. *)
Class Console (S : Type) := {
  console : S -> list string;
  emit : string -> S -> S
}.

Definition print {S} `{Console S} (line : string) : M S unit :=
  fun s => (Ok tt, emit line s).

End Eff.

(** ** The metadata store and Airflow's ORM

    A table is the list of its rows, a row maps column names to values, and
    a column that is absent from a row is NULL.  The model does not enforce
    column types and does not assign the surrogate [id] of a new row. *)

Module Orm.
Import Py Eff.

Abbreviation row := (gmap string value).

(** [obj.c]: a NULL column reads as [None]. *)
Definition attr (r : row) (c : string) : value := default VNone (r !! c).

Inductive kind : Type := Variable_ | Connection | Pool | DagModel.

#[global] Instance kind_eq_dec : EqDecision kind.
Proof. solve_decision. Defined.

Record store : Type := mk_store {
  variable : list row;
  connection : list row;
  slot_pool : list row;
  dag : list row
}.

Definition table (k : kind) (st : store) : list row :=
  match k with
  | Variable_ => variable st
  | Connection => connection st
  | Pool => slot_pool st
  | DagModel => dag st
  end.

Definition set_table (k : kind) (rows : list row) (st : store) : store :=
  match k with
  | Variable_ => mk_store rows (connection st) (slot_pool st) (dag st)
  | Connection => mk_store (variable st) rows (slot_pool st) (dag st)
  | Pool => mk_store (variable st) (connection st) rows (dag st)
  | DagModel => mk_store (variable st) (connection st) (slot_pool st) rows
  end.

(** The identity column of each model; it is unique and not NULL. *)
Definition key_column (k : kind) : string :=
  match k with
  | Variable_ => "key"
  | Connection => "conn_id"
  | Pool => "pool"
  | DagModel => "dag_id"
  end.

(** The mapped attributes of each model in Airflow 2.1.0. *)
Definition columns (k : kind) : list string :=
  match k with
  | Variable_ => ["id"; "key"; "val"; "description"; "is_encrypted"]
  | Connection =>
      ["id"; "conn_id"; "conn_type"; "description"; "host"; "schema"; "login";
       "password"; "port"; "is_encrypted"; "is_extra_encrypted"; "extra"]
  | Pool => ["id"; "pool"; "slots"; "description"]
  | DagModel =>
      ["dag_id"; "root_dag_id"; "is_paused"; "is_subdag"; "is_active";
       "last_parsed_time"; "last_pickled"; "last_expired"; "scheduler_lock";
       "pickle_id"; "fileloc"; "owners"; "description"; "default_view";
       "schedule_interval"; "concurrency"; "has_task_concurrency_limits";
       "next_dagrun"; "next_dagrun_create_after"]
  end.

(** The keywords each constructor takes.  [Pool] and [DagModel] use the
    declarative constructor, which takes the mapped attributes;
    [Connection] has its own signature (its alternative [uri] keyword is not
    modelled). *)
Definition init_args (k : kind) : list string :=
  match k with
  | Connection =>
      ["conn_id"; "conn_type"; "description"; "host"; "login"; "password";
       "schema"; "port"; "extra"]
  | _ => columns k
  end.

Definition mem (x : string) (l : list string) : bool := existsb (String.eqb x) l.

(** [Model( **kw )]: an unexpected keyword is a [TypeError]; the given
    attributes are set, the others stay NULL. *)
Definition construct (k : kind) (kw : list (string * value)) : res row :=
  if forallb (fun c => mem c (init_args k)) (dict_keys kw)
  then Ok (list_to_map kw)
  else Raise TypeError.

(** The identity of a row, when its key column holds a string. *)
Definition key_of (col : string) (r : row) : option string :=
  match r !! col with
  | Some (VJson (JStr s)) => Some s
  | _ => None
  end.

(** The position of the first row with identity [k]. *)
Definition find_row (col k : string) (rows : list row) : option nat :=
  fst <$> list_find (fun r => key_of col r = Some k) rows.

(** *** Sessions

    Inside a session the script sees the persistent rows (with the changes
    it made to them through the objects it loaded) and holds the objects it
    added but that are not flushed yet. *)

Record session : Type := mk_session {
  s_rows : list row;
  s_new : list row;
  s_out : list string
}.

#[global] Instance session_console : Console session := {|
  console := s_out;
  emit line s := mk_session (s_rows s) (s_new s) (s_out s ++ [line])
|}.

(** Flushing sends the INSERTs of the added objects, in order.  The
    database refuses a row without identity and a row whose identity is
    already taken. *)
Fixpoint flush_rows (col : string) (new rows : list row) : res (list row) :=
  match new with
  | [] => Ok rows
  | r :: new' =>
      match key_of col r with
      | None => Raise IntegrityError
      | Some k =>
          match find_row col k rows with
          | Some _ => Raise IntegrityError
          | None => flush_rows col new' (rows ++ [r])
          end
      end
  end.

Definition flush (col : string) : M session unit := fun s =>
  match flush_rows col (s_new s) (s_rows s) with
  | Ok rows => (Ok tt, mk_session rows [] (s_out s))
  | Raise e => (Raise e, s)
  end.

(** [session.query(Model).filter_by(key=v).first()]: the position of the
    object found, if any.  With [autoflush] the session flushes before it
    queries; without it the query does not see the added objects.  A lookup
    by [None] finds nothing (no identity is NULL); a lookup by a value that
    is neither a string nor [None] is outside the identity column's type
    and is rejected. *)
Definition query_first (autoflush : bool) (col : string) (v : json) : M session (option nat) :=
  (if autoflush then flush col else mret tt) ;;
  match v with
  | JStr k => fun s => (Ok (find_row col k (s_rows s)), s)
  | JNull => mret None
  | _ => lift (Raise ProgrammingError)
  end.

(** [existing.c = v] on the object at position [i].  An attribute that is
    not mapped is a plain Python attribute of the object and is not
    persisted. *)
Definition setattr (k : kind) (i : nat) (c : string) (v : value) : M session unit := fun s =>
  (Ok tt,
   if mem c (columns k)
   then mk_session (alter (fun r : row => <[c := v]> r) i (s_rows s)) (s_new s) (s_out s)
   else s).

(** [session.add(obj)] *)
Definition add (r : row) : M session unit := fun s =>
  (Ok tt, mk_session (s_rows s) (s_new s ++ [r]) (s_out s)).

(** *** The world of a script run

    [faults] scripts the outcome of the coming commits: [true] means the
    store is unavailable at that commit ([OperationalError]); once the list
    is used up every commit goes through. *)

Record world : Type := mk_world {
  db : store;
  out : list string;
  faults : list bool
}.

#[global] Instance world_console : Console world := {|
  console := out;
  emit line w := mk_world (db w) (out w ++ [line]) (faults w)
|}.

(** [with create_session() as session: body]: one unit of work on the table
    of [k].  It commits when the body completes and rolls back when the body
    or the commit raises; the exception is raised again. *)
Definition create_session (k : kind) (body : M session unit) : M world unit := fun w =>
  match body (mk_session (table k (db w)) [] (out w)) with
  | (Raise e, s) => (Raise e, mk_world (db w) (s_out s) (faults w))
  | (Ok _, s) =>
      match faults w with
      | true :: fs => (Raise OperationalError, mk_world (db w) (s_out s) fs)
      | fs =>
          match flush_rows (key_column k) (s_new s) (s_rows s) with
          | Raise e => (Raise e, mk_world (db w) (s_out s) (tail fs))
          | Ok rows => (Ok tt, mk_world (set_table k rows (db w)) (s_out s) (tail fs))
          end
      end
  end.

(** [Variable.set(key, value)]: a unit of work of its own, which deletes
    the rows named [key] and adds one that holds [str(value)]. *)
Definition Variable_set (key : string) (value : json) : M world unit := fun w =>
  match faults w with
  | true :: fs => (Raise OperationalError, mk_world (db w) (out w) fs)
  | fs =>
      let kept := filter (fun r => key_of "key" r <> Some key) (variable (db w)) in
      let new : row := <["key" := VStr key]> (<["val" := VStr (str_json value)]> ∅) in
      (Ok tt, mk_world (set_table Variable_ (kept ++ [new]) (db w)) (out w) (tail fs))
  end.

(** *** Snapshot files

    A file that exists either holds a JSON document or makes [json.load]
    raise. *)
Inductive file : Type :=
| NotJson
| Json (j : json).

Definition os_path_exists (fs : gmap string file) (name : string) : bool :=
  bool_decide (is_Some (fs !! name)).

(** [with open(name) as f: json.load(f)], for a file known to exist. *)
Definition json_load {S} (fs : gmap string file) (name : string) : M S json :=
  match fs !! name with
  | Some (Json j) => mret j
  | _ => lift (Raise JSONDecodeError)
  end.

End Orm.

(** ** airflow_backup.py: the capture of the DAG models *)

Module Backup.
Import Py Eff Orm.

(** The record built from one row of the projection query (lines 61-69):
    six attributes as they are and the schedule through [str()]. *)
Definition dag_record (dag : row) : list (string * value) :=
  [ ("dag_id", attr dag "dag_id");
    ("is_paused", attr dag "is_paused");
    ("is_active", attr dag "is_active");
    ("is_subdag", attr dag "is_subdag");
    ("fileloc", attr dag "fileloc");
    ("owners", attr dag "owners");
    ("schedule_interval", VStr (str (attr dag "schedule_interval"))) ].

(** The list [dags] after the loop over the query result. *)
Definition dags (st : store) : list (list (string * value)) :=
  map dag_record (dag st).

(** [json.dump]: the document written for a list of records; a [datetime]
    or a [timedelta] is not JSON serializable. *)
Definition dump_value (v : value) : res json :=
  match v with
  | VJson j => Ok j
  | _ => Raise TypeError
  end.

Fixpoint dump_record (d : list (string * value)) : res (list (string * json)) :=
  match d with
  | [] => Ok []
  | (k, v) :: d' =>
      match dump_value v, dump_record d' with
      | Ok j, Ok r => Ok ((k, j) :: r)
      | Raise e, _ => Raise e
      | _, Raise e => Raise e
      end
  end.

Fixpoint dump_records (l : list (list (string * value))) : res (list json) :=
  match l with
  | [] => Ok []
  | d :: l' =>
      match dump_record d, dump_records l' with
      | Ok r, Ok rs => Ok (JDict r :: rs)
      | Raise e, _ => Raise e
      | _, Raise e => Raise e
      end
  end.


End Backup.

(** ** airflow_restore.py *)

Module Restore.
Import Py Eff Orm.

Section Script.

(** The interpreter the script runs on. *)
Context {python : Interpreter}.

(** Whether the session factory flushes before queries.  Airflow builds its
    sessions with [autoflush=False]; SQLAlchemy's own default is [True]. *)
Variable autoflush : bool.

(** The snapshot files in the working directory. *)
Variable fs : gmap string file.

(** Lines 7-14. *)
Definition restore_variables : M world unit :=
  if os_path_exists fs "variables_backup.json" then
    variables ← json_load fs "variables_backup.json";
    kvs ← lift (items variables);
    for_each (fun kv => Variable_set (fst kv) (snd kv)) kvs;;
    print "✅ Restored variables from variables_backup.json"
  else
    print "⚠️ variables_backup.json not found".

(** Lines 22-35: one connection record. *)
Definition restore_connection (c : json) : M session unit :=
  conn_id ← lift (getitem c "conn_id");
  existing ← query_first autoflush "conn_id" conn_id;
  match existing with
  | Some e =>
      print ("🔁 Updating existing connection: " +:+ str_json conn_id);;
      v ← lift (getitem c "conn_type"); setattr Connection e "conn_type" (VJson v);;
      v ← lift (getitem c "host"); setattr Connection e "host" (VJson v);;
      v ← lift (getitem c "login"); setattr Connection e "login" (VJson v);;
      v ← lift (getitem c "password"); setattr Connection e "password" (VJson v);;
      v ← lift (getitem c "schema"); setattr Connection e "schema" (VJson v);;
      v ← lift (getitem c "port"); setattr Connection e "port" (VJson v);;
      v ← lift (getitem c "extra"); setattr Connection e "extra" (VJson v)
  | None =>
      print ("➕ Inserting new connection: " +:+ str_json conn_id);;
      kw ← lift (kwargs c);
      new_conn ← lift (construct Connection kw);
      add new_conn
  end.

(** Lines 17-38. *)
Definition restore_connections : M world unit :=
  if os_path_exists fs "connections_backup.json" then
    connections ← json_load fs "connections_backup.json";
    create_session Connection (
      cs ← lift (iter connections);
      for_each restore_connection cs);;
    print "✅ All connections restored successfully."
  else
    print "⚠️ connections_backup.json not found".

(** Lines 46-53: one pool record. *)
Definition restore_pool (p : json) : M session unit :=
  pool ← lift (getitem p "pool");
  existing ← query_first autoflush "pool" pool;
  match existing with
  | Some e =>
      print ("🔁 Updating existing pool: " +:+ str_json pool);;
      v ← lift (getitem p "slots"); setattr Pool e "slots" (VJson v);;
      v ← lift (getitem p "description"); setattr Pool e "description" (VJson v)
  | None =>
      print ("➕ Inserting new pool: " +:+ str_json pool);;
      kw ← lift (kwargs p);
      new_pool ← lift (construct Pool kw);
      add new_pool
  end.

(** Lines 41-56. *)
Definition restore_pools : M world unit :=
  if os_path_exists fs "pools_backup.json" then
    pools ← json_load fs "pools_backup.json";
    create_session Pool (
      ps ← lift (iter pools);
      for_each restore_pool ps);;
    print "✅ All pools restored successfully."
  else
    print "⚠️ pools_backup.json not found".

Definition time_fields : list string :=
  ["last_parsed_time"; "last_pickled"; "last_expired"].

(** Lines 65-69: the coercion loop, which rewrites the slots of the record. *)
Fixpoint coerce_times (fields : list string) (d : list (string * value))
  : res (list (string * value)) :=
  match fields with
  | [] => Ok d
  | time_field :: fields' =>
      match slot d time_field with
      | Raise e => Raise e
      | Ok v =>
          if truthy_value v then
            match fromisoformat v with
            | Raise e => Raise e
            | Ok t => coerce_times fields' (dict_set time_field (VDatetime t) d)
            end
          else coerce_times fields' (dict_set time_field VNone d)
      end
  end.

(** Lines 64-76: one DAG record. *)
Definition restore_dag (dag : json) : M session unit :=
  dag_id ← lift (getitem dag "dag_id");
  existing ← query_first autoflush "dag_id" dag_id;
  d ← lift (kwargs dag);
  d ← lift (coerce_times time_fields d);
  match existing with
  | Some e =>
      v ← lift (slot d "dag_id");
      print ("🔁 Updating existing DAG: " +:+ str v);;
      for_each (fun kv => setattr DagModel e (fst kv) (snd kv)) d
  | None =>
      v ← lift (slot d "dag_id");
      print ("➕ Inserting new DAG: " +:+ str v);;
      new_dag ← lift (construct DagModel d);
      add new_dag
  end.

(** Lines 59-79. *)
Definition restore_dags : M world unit :=
  if os_path_exists fs "dag_models_backup.json" then
    dags ← json_load fs "dag_models_backup.json";
    create_session DagModel (
      ds ← lift (iter dags);
      for_each restore_dag ds);;
    print "✅ DAG metadata restored from dag_models_backup.json"
  else
    print "⚠️ dag_models_backup.json not found".

Definition complete_marker : string := "🎉 Restore complete!".

(** The whole script. *)
Definition restore : M world unit :=
  restore_variables;;
  restore_connections;;
  restore_pools;;
  restore_dags;;
  print complete_marker.

(** The pass of the script that restores one kind. *)
Definition pass (k : kind) : M world unit :=
  match k with
  | Variable_ => restore_variables
  | Connection => restore_connections
  | Pool => restore_pools
  | DagModel => restore_dags
  end.

End Script.

End Restore.

(** * Specification

    The vocabulary of the properties: the snapshot files and the lines of
    each kind, well-formed snapshots, and the reconciliation stated on
    tables. *)

Import Py Eff Orm.
Open Scope list_scope.

Section Vocabulary.
Context {python : Interpreter}.

Definition all_kinds : list kind := [Variable_; Connection; Pool; DagModel].

(** The file each pass reads. *)
Definition snapshot_name (k : kind) : string :=
  match k with
  | Variable_ => "variables_backup.json"
  | Connection => "connections_backup.json"
  | Pool => "pools_backup.json"
  | DagModel => "dag_models_backup.json"
  end.

Definition missing_line (k : kind) : string :=
  "⚠️ " +:+ snapshot_name k +:+ " not found".

(** The body of the session block of each kind restored through a session. *)
Definition session_body (af : bool) (k : kind) (j : json) : M session unit :=
  match k with
  | Variable_ => mret tt
  | Connection => cs ← lift (iter j); for_each (Restore.restore_connection af) cs
  | Pool => ps ← lift (iter j); for_each (Restore.restore_pool af) ps
  | DagModel => ds ← lift (iter j); for_each (Restore.restore_dag af) ds
  end.

Definition done_line (k : kind) : string :=
  match k with
  | Variable_ => "✅ Restored variables from variables_backup.json"
  | Connection => "✅ All connections restored successfully."
  | Pool => "✅ All pools restored successfully."
  | DagModel => "✅ DAG metadata restored from dag_models_backup.json"
  end.

(** A statement [grows] the console when all it does to it is append lines
    other than the completion marker. *)
Definition grows {S A} `{Console S} (m : M S A) : Prop :=
  forall s, exists o,
    console (snd (m s)) = console s ++ o /\ Restore.complete_marker ∉ o.

(** ** The reconciliation stated on tables

    What a session pass amounts to on well-formed input: every record
    carries an identity, the assignments of the update branch and the row of
    the insert branch, and is applied to the table as an upsert. *)

Record plan : Type := mk_plan {
  p_id : string;
  p_asg : list (string * value);
  p_new : row
}.

(** The effect on a row of a series of attribute assignments. *)
Definition apply_updates (k : kind) (asg : list (string * value)) (r : row) : row :=
  fold_left (fun r kv => if mem (fst kv) (columns k) then <[fst kv := snd kv]> r else r) asg r.

Definition upsert (k : kind) (p : plan) (rows : list row) : list row :=
  match find_row (key_column k) (p_id p) rows with
  | Some i => alter (apply_updates k (p_asg p)) i rows
  | None => rows ++ [p_new p]
  end.

Definition reconcile_rows (k : kind) (ps : list plan) (rows : list row) : list row :=
  fold_left (fun rows p => upsert k p rows) ps rows.

(** A row agrees with a plan when it holds every mapped attribute the plan
    assigns. *)
Definition agrees (k : kind) (p : plan) (r : row) : Prop :=
  forall f v, (f, v) ∈ p_asg p -> mem f (columns k) = true -> r !! f = Some v.

Record plan_ok (k : kind) (p : plan) : Prop := {
  ok_nodup : NoDup (map fst (p_asg p));
  ok_new_key : key_of (key_column k) (p_new p) = Some (p_id p);
  ok_new_agrees : agrees k p (p_new p);
  ok_upd_key : forall r, key_of (key_column k) r = Some (p_id p) ->
      key_of (key_column k) (apply_updates k (p_asg p) r) = Some (p_id p)
}.

Definition update_line (k : kind) (id : string) : string :=
  match k with
  | Variable_ => EmptyString
  | Connection => "🔁 Updating existing connection: " +:+ id
  | Pool => "🔁 Updating existing pool: " +:+ id
  | DagModel => "🔁 Updating existing DAG: " +:+ id
  end.

Definition insert_line (k : kind) (id : string) : string :=
  match k with
  | Variable_ => EmptyString
  | Connection => "➕ Inserting new connection: " +:+ id
  | Pool => "➕ Inserting new pool: " +:+ id
  | DagModel => "➕ Inserting new DAG: " +:+ id
  end.

(** What the loop body does with a well-formed record, as a statement. *)
Definition upsert_step (af : bool) (k : kind) (p : plan) : M session unit :=
  existing ← query_first af (key_column k) (JStr (p_id p));
  match existing with
  | Some e =>
      print (update_line k (p_id p));;
      for_each (fun kv => setattr k e (fst kv) (snd kv)) (p_asg p)
  | None =>
      print (insert_line k (p_id p));;
      add (p_new p)
  end.

(** The added objects can be flushed: each has an identity, and these are
    distinct and not taken. *)
Record pending_ok (col : string) (rows new : list row) : Prop := {
  pk_keys : Forall (fun r => is_Some (key_of col r)) new;
  pk_nodup : NoDup (map (key_of col) new);
  pk_fresh : forall r, r ∈ new -> key_of col r ∉ map (key_of col) rows
}.

(** Without autoflush a record whose identity is not in the table must not
    meet an added object of the same identity: [taken] are the identities
    of the table, [pend] those of the objects added so far. *)
Fixpoint fresh_ok (taken pend : list (option string)) (ps : list plan) : Prop :=
  match ps with
  | [] => True
  | p :: ps' =>
      if decide (Some (p_id p) ∈ taken) then fresh_ok taken pend ps'
      else (Some (p_id p) ∉ pend) /\ fresh_ok taken (pend ++ [Some (p_id p)]) ps'
  end.

(** ** Well-formed snapshots *)

Definition conn_fields : list string :=
  ["conn_type"; "host"; "login"; "password"; "schema"; "port"; "extra"].

Definition pool_fields : list string := ["slots"; "description"].

(** The fields the update branch of each kind reads by name. *)
Definition required (k : kind) : list string :=
  match k with
  | Variable_ => []
  | Connection => conn_fields
  | Pool => pool_fields
  | DagModel => Restore.time_fields
  end.

Fixpoint nodupb (l : list string) : bool :=
  match l with
  | [] => true
  | x :: l' => negb (mem x l') && nodupb l'
  end.

Definition string_id (k : kind) (d : list (string * json)) : option string :=
  match dict_get (key_column k) d with
  | Some (JStr id) => Some id
  | _ => None
  end.

Definition record_id (k : kind) (c : json) : option string :=
  match c with
  | JDict d => string_id k d
  | _ => None
  end.

(** A timestamp slot the coercion accepts: falsy, or a well-formed ISO
    string. *)
Definition coercible (j : json) : bool :=
  negb (truthy j) ||
  match fromisoformat (VJson j) with Ok _ => true | Raise _ => false end.

(** A well-formed record of a session kind: a dict (whose keys are
    distinct, as in any Python dict) with a string identity, the fields the
    update branch reads, no key the constructor rejects and, for a DAG,
    timestamps the coercion accepts. *)
Definition valid_record (k : kind) (c : json) : bool :=
  match c with
  | JDict d =>
      nodupb (dict_keys d)
      && bool_decide (is_Some (string_id k d))
      && forallb (fun f => mem f (dict_keys d)) (required k)
      && forallb (fun f => mem f (init_args k)) (dict_keys d)
      && match k with
         | DagModel =>
             forallb (fun f => match dict_get f d with
                               | Some j => coercible j
                               | None => false
                               end) Restore.time_fields
         | _ => true
         end
  | _ => false
  end.


(** ** What a well-formed record asks for *)

(** The native value of a timestamp slot (lines 66-69). *)
Definition coerce_value (j : json) : value :=
  if truthy j then
    match fromisoformat (VJson j) with
    | Ok t => VDatetime t
    | Raise _ => VNone
    end
  else VNone.

Definition coerce_slot (f : string) (d : list (string * value)) : list (string * value) :=
  match dict_get f d with
  | Some (VJson j) => dict_set f (coerce_value j) d
  | _ => d
  end.

(** The slots of a DAG record after the coercion loop. *)
Definition dag_slots (d : list (string * json)) : list (string * value) :=
  fold_left (fun d' f => coerce_slot f d') Restore.time_fields
            (map (fun kv => (fst kv, VJson (snd kv))) d).

Definition plan_of (k : kind) (d : list (string * json)) : plan :=
  let asg :=
    match k with
    | DagModel => dag_slots d
    | _ => map (fun f => (f, VJson (default JNull (dict_get f d)))) (required k)
    end in
  let kw :=
    match k with
    | DagModel => dag_slots d
    | _ => map (fun kv => (fst kv, VJson (snd kv))) d
    end in
  mk_plan (default EmptyString (string_id k d)) asg (list_to_map kw).

Definition record_plan (k : kind) (c : json) : plan :=
  match c with
  | JDict d => plan_of k d
  | _ => plan_of k []
  end.

(** The loop body of each session kind. *)
Definition record_body (af : bool) (k : kind) : json -> M session unit :=
  match k with
  | Variable_ => fun _ => mret tt
  | Connection => Restore.restore_connection af
  | Pool => Restore.restore_pool af
  | DagModel => Restore.restore_dag af
  end.

(** ** The reconciliation of a store with a set of snapshot files *)








(** The rows that none of the variables in [d] names. *)
Definition outside (d : list (string * json)) (r : row) : Prop :=
  key_of "key" r ∉ map Some (dict_keys d).

#[local] Instance outside_dec d r : Decision (outside d r).
Proof. unfold outside. apply _. Defined.



End Vocabulary.

(** ** Sample inputs *)

Module Sample.

Definition empty_store : store := mk_store [] [] [] [].

(** An empty store, an empty console, a store that stays available. *)
Definition fresh : world := mk_world empty_store [] [].

Definition conn_record (id : string) (host : json) : json :=
  JDict [("conn_id", JStr id); ("conn_type", JStr "postgres"); ("host", host);
         ("login", JNull); ("password", JNull); ("schema", JNull);
         ("port", JInt 5432); ("extra", JNull)].

Definition pool_record (name : string) (slots : Z) : json :=
  JDict [("pool", JStr name); ("slots", JInt slots); ("description", JNull)].

Definition dag_record (id : string) (last_pickled : json) : json :=
  JDict [("dag_id", JStr id); ("is_paused", JBool false); ("is_active", JBool true);
         ("is_subdag", JBool false); ("fileloc", JStr "/dags/etl.py");
         ("owners", JStr "airflow"); ("schedule_interval", JStr "None");
         ("last_parsed_time", JNull); ("last_pickled", last_pickled);
         ("last_expired", JNull)].

Definition one_file (k : kind) (f : file) : gmap string file :=
  {[ snapshot_name k := f ]}.

(** A store that has one connection, with a description (a column the
    snapshot does not carry), and one DAG that has no schedule. *)
Definition old_conn : row :=
  list_to_map [("conn_id", VStr "db1"); ("conn_type", VStr "mysql");
               ("host", VStr "old"); ("description", VStr "primary")].

Definition old_dag : row :=
  list_to_map [("dag_id", VStr "etl"); ("is_paused", VJson (JBool false));
               ("is_active", VJson (JBool true)); ("is_subdag", VJson (JBool false));
               ("fileloc", VStr "/dags/etl.py"); ("owners", VStr "airflow")].

Definition stocked : world := mk_world (mk_store [] [old_conn] [] [old_dag]) [] [].

End Sample.

(** * airflow_backup.py, the whole script *)

Module Capture.

(** [with create_session() as session: body], for a body that yields what
    it read: the unit of work of [create_session], with a result. *)
Definition with_session {A} (k : kind) (body : M session A) : M world A := fun w =>
  match body (mk_session (table k (db w)) [] (out w)) with
  | (Raise e, s) => (Raise e, mk_world (db w) (s_out s) (faults w))
  | (Ok a, s) =>
      match faults w with
      | true :: fs => (Raise OperationalError, mk_world (db w) (s_out s) fs)
      | fs =>
          match flush_rows (key_column k) (s_new s) (s_rows s) with
          | Raise e => (Raise e, mk_world (db w) (s_out s) (tail fs))
          | Ok rows => (Ok a, mk_world (set_table k rows (db w)) (s_out s) (tail fs))
          end
      end
  end.

(** [session.query(Model).all()] *)
Definition query_all (autoflush : bool) (k : kind) : M session (list row) :=
  (if autoflush then flush (key_column k) else mret tt) ;;
  ((fun s => (Ok (s_rows s), s)) : M session (list row)).

(** The dict [variables]: its keys are what [var.key] reads, a string or
    [None] (the column is a string column). *)
Fixpoint pydict_set (k : option string) (v : value) (d : list (option string * value))
  : list (option string * value) :=
  match d with
  | [] => [(k, v)]
  | (k', v') :: d' =>
      if decide (k = k') then (k', v) :: d' else (k', v') :: pydict_set k v d'
  end.

(** Lines 13-16. *)
Definition variables (vars : list row) : list (option string * value) :=
  fold_left (fun d var => pydict_set (key_of "key" var) (attr var "val") d) vars [].

(** Lines 24-33. *)
Definition connection_record (conn : row) : list (string * value) :=
  [ ("conn_id", attr conn "conn_id");
    ("conn_type", attr conn "conn_type");
    ("host", attr conn "host");
    ("login", attr conn "login");
    ("password", attr conn "password");
    ("schema", attr conn "schema");
    ("port", attr conn "port");
    ("extra", attr conn "extra") ].

(** Lines 41-45. *)
Definition pool_record (pool : row) : list (string * value) :=
  [ ("pool", attr pool "pool");
    ("slots", attr pool "slots");
    ("description", attr pool "description") ].

(** [json.dump] of the dict of variables, as [json.load] reads it back: a
    [None] key is written as ["null"]. *)
Definition key_text (k : option string) : string :=
  match k with
  | Some s => s
  | None => "null"
  end.

Fixpoint dump_dict (d : list (option string * value)) (acc : list (string * json))
  : res (list (string * json)) :=
  match d with
  | [] => Ok acc
  | (k, v) :: d' =>
      match Backup.dump_value v with
      | Ok j => dump_dict d' (dict_set (key_text k) j acc)
      | Raise e => Raise e
      end
  end.

Definition dump_list (l : list (list (string * value))) : res json :=
  match Backup.dump_records l with
  | Ok rs => Ok (JList rs)
  | Raise e => Raise e
  end.

(** The document the script writes for each kind, from the rows it read. *)
Definition document (k : kind) (rows : list row) : res json :=
  match k with
  | Variable_ =>
      match dump_dict (variables rows) [] with
      | Ok d => Ok (JDict d)
      | Raise e => Raise e
      end
  | Connection => dump_list (map connection_record rows)
  | Pool => dump_list (map pool_record rows)
  | DagModel => dump_list (map Backup.dag_record rows)
  end.

(** The machine the script runs on: the world and the files. *)
Record machine : Type := mk_machine {
  world_of : world;
  files : gmap string file
}.

#[global] Instance machine_console : Console machine := {|
  console h := out (world_of h);
  emit line h := mk_machine (emit line (world_of h)) (files h)
|}.

Definition on_world {A} (m : M world A) : M machine A := fun h =>
  match m (world_of h) with
  | (r, w) => (r, mk_machine w (files h))
  end.

(** [with open(path, "w") as f: json.dump(obj, f, indent=2)]: opening
    truncates the file; a value that is not serializable raises in the
    middle of the dump and leaves the file without a JSON document. *)
Definition json_dump (path : string) (doc : res json) : M machine unit := fun h =>
  match doc with
  | Ok j => (Ok tt, mk_machine (world_of h) (<[path := Json j]> (files h)))
  | Raise e => (Raise e, mk_machine (world_of h) (<[path := NotJson]> (files h)))
  end.

Definition backup_dir : string := "/tmp".

Section Script.
Variable autoflush : bool.

(** Lines 13-18. *)
Definition backup_variables : M machine unit :=
  vars ← on_world (with_session Variable_ (query_all autoflush Variable_));
  json_dump (backup_dir +:+ "/variables_backup.json") (document Variable_ vars).

(** Lines 21-35. *)
Definition backup_connections : M machine unit :=
  conns ← on_world (with_session Connection (query_all autoflush Connection));
  json_dump (backup_dir +:+ "/connections_backup.json") (document Connection conns).

(** Lines 38-47. *)
Definition backup_pools : M machine unit :=
  pools ← on_world (with_session Pool (query_all autoflush Pool));
  json_dump (backup_dir +:+ "/pools_backup.json") (document Pool pools).

(** Lines 50-72. *)
Definition backup_dags : M machine unit :=
  dags ← on_world (with_session DagModel (query_all autoflush DagModel));
  json_dump "/tmp/dag_models_backup.json" (document DagModel dags).

(** The whole script (the creation of the directory is outside the
    model). *)
Definition backup : M machine unit :=
  backup_variables;;
  backup_connections;;
  backup_pools;;
  backup_dags;;
  print "✅ DAG metadata backed up successfully for Airflow 2.1.0";;
  print ("✅ All backups written to " +:+ backup_dir +:+ "/*.json").

(** The block of the script that captures one kind. *)
Definition capture (k : kind) : M machine unit :=
  match k with
  | Variable_ => backup_variables
  | Connection => backup_connections
  | Pool => backup_pools
  | DagModel => backup_dags
  end.

End Script.

(** The file the script writes for each kind. *)
Definition path (k : kind) : string := "/tmp/" +:+ snapshot_name k.

(** The snapshot files a restore run sees when its working directory is
    [/tmp]. *)
Definition in_tmp (fl : gmap string file) : gmap string file :=
  list_to_map (omap (fun k => match fl !! path k with
                              | Some f => Some (snapshot_name k, f)
                              | None => None
                              end) all_kinds).

End Capture.

(** ** Vocabulary of the round trips *)

(** The record the backup builds from a row of each kind restored through
    a session. *)
Definition record_of (k : kind) (r : row) : list (string * value) :=
  match k with
  | Variable_ => []
  | Connection => Capture.connection_record r
  | Pool => Capture.pool_record r
  | DagModel => Backup.dag_record r
  end.

(** The columns a snapshot of connections or pools carries. *)
Definition carried (k : kind) : list string := key_column k :: required k.

(** Every row has an identity and no two rows share one, as the unique
    index of the identity column ensures. *)
Definition keyed (k : kind) (rows : list row) : Prop :=
  Forall (fun r => is_Some (key_of (key_column k) r)) rows /\
  NoDup (map (key_of (key_column k)) rows).


#[global] Instance keyed_dec k rows : Decision (keyed k rows).
Proof. unfold keyed. apply _. Defined.

(** A store in use: a variable with a description and one without a
    value, a connection with a description, a pool. *)
Module Stock.

Definition env_var : row :=
  list_to_map [("id", VJson (JInt 1)); ("key", VStr "env"); ("val", VStr "prod");
               ("description", VStr "the stage")].

Definition unset_var : row :=
  list_to_map [("id", VJson (JInt 2)); ("key", VStr "owner")].

Definition default_pool : row :=
  list_to_map [("id", VJson (JInt 1)); ("pool", VStr "default_pool");
               ("slots", VJson (JInt 128)); ("description", VStr "Default pool")].

Definition store_in_use : store :=
  mk_store [env_var; unset_var] [Sample.old_conn] [default_pool] [].

(** The machine before the backup: nothing printed, a store that stays
    available, a file of someone else's in [/tmp]. *)
Definition before : Capture.machine :=
  Capture.mk_machine (mk_world store_in_use [] []) {[ "/tmp/notes.txt" := NotJson ]}.

End Stock.

(** ** Documents of another shape *)

(** A document the loop of its pass has nothing to do for: the empty list
    and, as they iterate to nothing, the empty dict and the empty string;
    for the variables, the empty dict. *)
Definition empty_document (k : kind) (j : json) : bool :=
  match k, j with
  | Variable_, JDict [] => true
  | Variable_, _ => false
  | _, JList [] => true
  | _, JDict [] => true
  | _, JStr EmptyString => true
  | _, _ => false
  end.

(** A document that is not of the type its pass expects (a dict for the
    variables, a list for the other kinds) and is not empty. *)
Definition wrong_shape (k : kind) (j : json) : bool :=
  negb (empty_document k j) &&
  match k, j with
  | Variable_, JDict _ => false
  | Variable_, _ => true
  | _, JList _ => false
  | _, _ => true
  end.

(** What Python raises for it: [AttributeError] for the missing method
    [items], [TypeError] for a value that cannot be iterated or
    subscripted. *)
Definition shape_error (k : kind) : exn :=
  match k with
  | Variable_ => AttributeError
  | _ => TypeError
  end.

(** ** The lines of a pass *)



(** * Properties *)

(** ** The model at work *)

Section Examples.
#[local] Existing Instance cpython37.

Example fromisoformat_date :
  parse_isoformat "2021-05-17" = Some (mk_datetime 2021 5 17 0 0 0 0 None).
Proof. reflexivity. Qed.

Example fromisoformat_offset :
  parse_isoformat "2021-05-17T08:30:05.250+05:30"
  = Some (mk_datetime 2021 5 17 8 30 5 250000 (Some 19800000000%Z)).
Proof. vm_compute. reflexivity. Qed.

Example fromisoformat_not_a_date : fromisoformat (VStr "not-a-date") = Raise ValueError.
Proof. reflexivity. Qed.

Example fromisoformat_february : parse_isoformat "2021-02-29" = None.
Proof. reflexivity. Qed.

Example fromisoformat_number : fromisoformat (VJson (JInt 5)) = Raise TypeError.
Proof. reflexivity. Qed.

Example str_none : str VNone = "None".
Proof. reflexivity. Qed.

Example str_timedelta_day : str (VTimedelta 1 3600 0) = "1 day, 1:00:00".
Proof. vm_compute. reflexivity. Qed.

Example str_datetime_offset :
  str (VDatetime (mk_datetime 2021 5 17 8 30 5 250000 (Some 19800000000%Z)))
  = "2021-05-17 08:30:05.250000+05:30".
Proof. vm_compute. reflexivity. Qed.

Example str_list : str (VJson (JList [JInt 1; JStr "a"; JNull])) = "[1, 'a', None]".
Proof. vm_compute. reflexivity. Qed.

(** The scenario of the specification: the store has connection [db1], the
    snapshot has [db1] with a new host and [db2]. *)
Example restore_two_connections :
  let fs := Sample.one_file Connection
              (Json (JList [Sample.conn_record "db1" (JStr "new");
                            Sample.conn_record "db2" (JStr "x")])) in
  let run := Restore.restore false fs Sample.stocked in
  fst run = Ok tt /\
  map (fun r => (attr r "conn_id", attr r "host", attr r "port"))
      (connection (db (snd run)))
  = [(VStr "db1", VStr "new", VJson (JInt 5432));
     (VStr "db2", VStr "x", VJson (JInt 5432))] /\
  out (snd run)
  = ["⚠️ variables_backup.json not found";
     "🔁 Updating existing connection: db1";
     "➕ Inserting new connection: db2";
     "✅ All connections restored successfully.";
     "⚠️ pools_backup.json not found";
     "⚠️ dag_models_backup.json not found";
     "🎉 Restore complete!"].
Proof. vm_compute. repeat split. Qed.

End Examples.

(** What follows holds on every interpreter. *)
Section Theory.
Context {python : Interpreter}.

(** ** Running statements *)

Section Running.
Context {S : Type}.

Lemma run_bind {A B} (m : M S A) (f : A -> M S B) s :
  (m ≫= f) s = match m s with
               | (Ok a, s') => f a s'
               | (Raise e, s') => (Raise e, s')
               end.
Proof. reflexivity. Qed.

Lemma run_bind_ok {A B} (m : M S A) (f : A -> M S B) s a s' :
  m s = (Ok a, s') -> (m ≫= f) s = f a s'.
Proof. intros H. rewrite run_bind, H. reflexivity. Qed.

Lemma run_bind_raise {A B} (m : M S A) (f : A -> M S B) s e s' :
  m s = (Raise e, s') -> (m ≫= f) s = (Raise e, s').
Proof. intros H. rewrite run_bind, H. reflexivity. Qed.

Lemma run_ret {A} (a : A) (s : S) : (mret a : M S A) s = (Ok a, s).
Proof. reflexivity. Qed.

Lemma run_lift {A} (x : res A) (s : S) : lift x s = (x, s).
Proof. reflexivity. Qed.


End Running.

(** ** Units of work *)

Lemma table_set_table_eq k rows st : table k (set_table k rows st) = rows.
Proof. destruct k; reflexivity. Qed.

Lemma table_set_table_ne k k' rows st :
  k <> k' -> table k' (set_table k rows st) = table k' st.
Proof. destruct k, k'; intros H; try reflexivity; contradiction H; reflexivity. Qed.

Lemma set_table_table k st : set_table k (table k st) st = st.
Proof. destruct k, st; reflexivity. Qed.

(** What a session block does, in full: it completes exactly when its body
    completes, the commit is not hit by an outage and the flush succeeds,
    and only then does it write the table. *)
Lemma create_session_spec k body w :
  let s0 := mk_session (table k (db w)) [] (out w) in
  match create_session k body w with
  | (Ok _, w') =>
      exists s rows,
        body s0 = (Ok tt, s) /\
        flush_rows (key_column k) (s_new s) (s_rows s) = Ok rows /\
        w' = mk_world (set_table k rows (db w)) (s_out s) (tail (faults w))
  | (Raise e, w') => db w' = db w /\ out w' = s_out (snd (body s0))
  end.
Proof.
  unfold create_session. simpl.
  destruct (body _) as [[[]|e] s] eqn:Hb; simpl; [|done].
  destruct (faults w) as [|[|] fs] eqn:Hf; simpl; try done;
    destruct (flush_rows _ _ _) as [rows|e] eqn:Hfl; simpl; try done;
    exists s, rows; done.
Qed.

(** A session block that raises leaves the whole store as it was. *)
Lemma create_session_rollback k body w e w' :
  create_session k body w = (Raise e, w') -> db w' = db w.
Proof.
  intros H. pose proof (create_session_spec k body w) as Hs.
  rewrite H in Hs. apply Hs.
Qed.

(** A session block touches no table but its own. *)
Lemma create_session_frame k body w r w' k' :
  create_session k body w = (r, w') -> k <> k' ->
  table k' (db w') = table k' (db w).
Proof.
  intros H Hk. pose proof (create_session_spec k body w) as Hs.
  rewrite H in Hs. destruct r as [[]|e].
  - destruct Hs as (s & rows & _ & _ & ->). simpl.
    by apply table_set_table_ne.
  - destruct Hs as [-> _]. reflexivity.
Qed.

Lemma Variable_set_frame key v w r w' k' :
  Variable_set key v w = (r, w') -> k' <> Variable_ ->
  table k' (db w') = table k' (db w).
Proof.
  unfold Variable_set. intros H Hk.
  destruct (faults w) as [|[|] fs]; inversion H; subst; clear H;
    try reflexivity; destruct k'; done.
Qed.

Lemma for_each_Variable_set_frame kvs w r w' k' :
  for_each (fun kv : string * json => Variable_set (fst kv) (snd kv)) kvs w = (r, w') ->
  k' <> Variable_ ->
  table k' (db w') = table k' (db w).
Proof.
  intros H Hk. revert w H. induction kvs as [|[key v] kvs IH]; intros w H.
  - inversion H; subst. reflexivity.
  - simpl in H. rewrite run_bind in H.
    destruct (Variable_set key v w) as [[[]|e] w1] eqn:Hv.
    + rewrite (IH _ H). eapply Variable_set_frame; eauto.
    + inversion H; subst. eapply Variable_set_frame; eauto.
Qed.

Section Passes.
Variable autoflush : bool.
Variable fs : gmap string file.

Local Abbreviation pass := (Restore.pass autoflush fs).


(** A pass whose file is absent prints its warning and does nothing else. *)
Lemma pass_missing k w :
  fs !! snapshot_name k = None ->
  pass k w = (Ok tt, mk_world (db w) (out w ++ [missing_line k]) (faults w)).
Proof.
  intros H.
  destruct k; simpl in H; unfold Restore.pass,
    Restore.restore_variables, Restore.restore_connections,
    Restore.restore_pools, Restore.restore_dags, os_path_exists;
    rewrite H; reflexivity.
Qed.

(** A pass writes no table but the one of its kind. *)
Lemma pass_frame k w r w' k' :
  pass k w = (r, w') -> k <> k' -> table k' (db w') = table k' (db w).
Proof.
  intros H Hk.
  destruct (fs !! snapshot_name k) as [f|] eqn:Hf;
    [|rewrite pass_missing in H by done; inversion H; subst; reflexivity].
  assert (Hex : os_path_exists fs (snapshot_name k) = true).
  { unfold os_path_exists. rewrite Hf. reflexivity. }
  destruct k; simpl in Hf, Hex;
    unfold Restore.pass, Restore.restore_variables, Restore.restore_connections,
      Restore.restore_pools, Restore.restore_dags in H;
    rewrite Hex in H; unfold json_load in H; rewrite Hf in H;
    (destruct f as [|j]; [inversion H; subst; reflexivity|]);
    rewrite run_bind, run_ret in H.
  - rewrite run_bind, run_lift in H.
    destruct (items j) as [kvs|e]; [|inversion H; subst; reflexivity].
    rewrite run_bind in H.
    destruct (for_each _ kvs w) as [[[]|e] w1] eqn:Hl.
    + inversion H; subst. simpl.
      eapply for_each_Variable_set_frame; eauto.
    + inversion H; subst. eapply for_each_Variable_set_frame; eauto.
  - rewrite run_bind in H.
    destruct (create_session _ _ w) as [[[]|e] w1] eqn:Hc;
      inversion H; subst; simpl; eapply create_session_frame; eauto.
  - rewrite run_bind in H.
    destruct (create_session _ _ w) as [[[]|e] w1] eqn:Hc;
      inversion H; subst; simpl; eapply create_session_frame; eauto.
  - rewrite run_bind in H.
    destruct (create_session _ _ w) as [[[]|e] w1] eqn:Hc;
      inversion H; subst; simpl; eapply create_session_frame; eauto.
Qed.

(** The pass of a kind restored through a session is all or nothing: when
    it raises, the store is as it was before the pass. *)
Lemma session_pass_rollback k w e w' :
  k <> Variable_ -> pass k w = (Raise e, w') -> db w' = db w.
Proof.
  intros Hk H.
  destruct (fs !! snapshot_name k) as [f|] eqn:Hf;
    [|rewrite pass_missing in H by done; inversion H].
  assert (Hex : os_path_exists fs (snapshot_name k) = true).
  { unfold os_path_exists. rewrite Hf. reflexivity. }
  destruct k; [done| | |]; simpl in Hf, Hex;
    unfold Restore.pass, Restore.restore_connections,
      Restore.restore_pools, Restore.restore_dags in H;
    rewrite Hex in H; unfold json_load in H; rewrite Hf in H;
    (destruct f as [|j]; [inversion H; subst; reflexivity|]);
    rewrite run_bind, run_ret, run_bind in H;
    (destruct (create_session _ _ w) as [[[]|e1] w1] eqn:Hc;
      inversion H; subst; eapply create_session_rollback; eauto).
Qed.

End Passes.

(** ** What gets printed *)


Section Grows.
Context {S : Type} `{Console S}.

Lemma grows_ret {A} (a : A) : grows (mret a : M S A).
Proof. intros s. exists []. rewrite app_nil_r. split; [done|apply not_elem_of_nil]. Qed.

Lemma grows_lift {A} (x : res A) : grows (lift x : M S A).
Proof. intros s. exists []. rewrite app_nil_r. split; [done|apply not_elem_of_nil]. Qed.

Lemma grows_bind {A B} (m : M S A) (f : A -> M S B) :
  grows m -> (forall a, grows (f a)) -> grows (m ≫= f).
Proof.
  intros Hm Hf s. rewrite run_bind.
  destruct (Hm s) as (o1 & E1 & N1).
  destruct (m s) as [[a|e] s1]; simpl in *.
  - destruct (Hf a s1) as (o2 & E2 & N2).
    exists (o1 ++ o2). rewrite E2, E1, app_assoc. split; [done|].
    rewrite elem_of_app. tauto.
  - exists o1. done.
Qed.

Lemma grows_for_each {A} (body : A -> M S unit) l :
  (forall x, grows (body x)) -> grows (for_each body l).
Proof.
  intros Hb. induction l as [|x l IH]; simpl.
  - apply grows_ret.
  - apply grows_bind; auto.
Qed.

End Grows.

Lemma grows_sprint line :
  line <> Restore.complete_marker -> grows (print line : M session unit).
Proof.
  intros Hl s. exists [line]. split; [done|].
  rewrite list_elem_of_singleton. congruence.
Qed.

Lemma grows_wprint line :
  line <> Restore.complete_marker -> grows (print line : M world unit).
Proof.
  intros Hl s. exists [line]. split; [done|].
  rewrite list_elem_of_singleton. congruence.
Qed.

Lemma grows_silent_session {A} (m : M session A) :
  (forall s, s_out (snd (m s)) = s_out s) -> grows m.
Proof.
  intros Hm s. exists []. simpl. rewrite Hm, app_nil_r.
  split; [done|apply not_elem_of_nil].
Qed.

Lemma grows_flush col : grows (flush col).
Proof.
  apply grows_silent_session. intros s. unfold flush.
  destruct (flush_rows _ _ _); reflexivity.
Qed.

Lemma grows_query_first af col v : grows (query_first af col v).
Proof.
  unfold query_first. apply grows_bind.
  - destruct af; [apply grows_flush|apply grows_ret].
  - intros _. destruct v; try apply grows_lift; try apply grows_ret.
    apply grows_silent_session. reflexivity.
Qed.

Lemma grows_setattr k i c v : grows (setattr k i c v).
Proof.
  apply grows_silent_session. intros s. unfold setattr.
  destruct (mem c (columns k)); reflexivity.
Qed.

Lemma grows_add r : grows (add r).
Proof. apply grows_silent_session. reflexivity. Qed.

Create HintDb grows.

#[local] Hint Resolve grows_ret grows_lift grows_for_each grows_query_first
  grows_setattr grows_add grows_flush : grows.

Ltac not_marker :=
  let E := fresh "E" in intros E; cbn in E; discriminate E.

Ltac grows_step :=
  first [ solve [auto with grows]
        | apply grows_sprint; not_marker
        | apply grows_wprint; not_marker
        | apply grows_bind; [|intros ?] ].

Lemma grows_restore_connection af c : grows (Restore.restore_connection af c).
Proof.
  unfold Restore.restore_connection.
  repeat (apply grows_bind; [auto with grows|intros ?]).
  destruct a0; repeat grows_step.
Qed.

Lemma grows_restore_pool af p : grows (Restore.restore_pool af p).
Proof.
  unfold Restore.restore_pool.
  repeat (apply grows_bind; [auto with grows|intros ?]).
  destruct a0; repeat grows_step.
Qed.

Lemma grows_restore_dag af d : grows (Restore.restore_dag af d).
Proof.
  unfold Restore.restore_dag.
  repeat (apply grows_bind; [auto with grows|intros ?]).
  destruct a0; repeat grows_step.
Qed.

Lemma grows_create_session k body : grows body -> grows (create_session k body).
Proof.
  intros Hb w. destruct (Hb (mk_session (table k (db w)) [] (out w))) as (o & E & N).
  exists o. split; [|done].
  change (out (snd (create_session k body w)) = out w ++ o).
  change (s_out (snd (body (mk_session (table k (db w)) [] (out w)))) = out w ++ o) in E.
  rewrite <- E. unfold create_session.
  destruct (body _) as [[[]|e] s]; simpl; [|done].
  destruct (faults w) as [|[|] fs']; simpl; try done;
    destruct (flush_rows _ _ _); done.
Qed.

Lemma grows_Variable_set key v : grows (Variable_set key v).
Proof.
  intros w. exists []. rewrite app_nil_r. split; [|apply not_elem_of_nil].
  unfold Variable_set. destruct (faults w) as [|[|] fs']; reflexivity.
Qed.

Lemma grows_json_load {S} `{Console S} fs name : grows (json_load fs name : M S json).
Proof.
  unfold json_load. destruct (fs !! name) as [[|j]|];
    try apply grows_lift; apply grows_ret.
Qed.

Lemma grows_pass af fs k : grows (Restore.pass af fs k).
Proof.
  destruct k; simpl;
    unfold Restore.restore_variables, Restore.restore_connections,
      Restore.restore_pools, Restore.restore_dags;
    destruct (os_path_exists _ _);
    try (apply grows_wprint; not_marker);
    (apply grows_bind; [apply grows_json_load|intros j]).
  - apply grows_bind; [apply grows_lift|intros kvs].
    apply grows_bind; [|intros _; apply grows_wprint; not_marker].
    apply grows_for_each. intros [key v]. apply grows_Variable_set.
  - apply grows_bind; [|intros _; apply grows_wprint; not_marker].
    apply grows_create_session.
    apply grows_bind; [apply grows_lift|intros cs].
    apply grows_for_each, grows_restore_connection.
  - apply grows_bind; [|intros _; apply grows_wprint; not_marker].
    apply grows_create_session.
    apply grows_bind; [apply grows_lift|intros cs].
    apply grows_for_each, grows_restore_pool.
  - apply grows_bind; [|intros _; apply grows_wprint; not_marker].
    apply grows_create_session.
    apply grows_bind; [apply grows_lift|intros cs].
    apply grows_for_each, grows_restore_dag.
Qed.

(** ** The run as a sequence of passes *)


Lemma for_each_app {S A} (body : A -> M S unit) l1 l2 s :
  for_each body (l1 ++ l2) s = (for_each body l1 ;; for_each body l2) s.
Proof.
  revert s. induction l1 as [|x l1 IH]; intros s; simpl.
  - reflexivity.
  - rewrite !run_bind. destruct (body x s) as [[[]|e] s1]; [|reflexivity].
    rewrite IH, run_bind. reflexivity.
Qed.

(** The script is its four passes, in order, and then the completion
    marker. *)
Lemma restore_passes af fs w :
  Restore.restore af fs w =
  (for_each (Restore.pass af fs) all_kinds ;; print Restore.complete_marker) w.
Proof.
  unfold Restore.restore, all_kinds. simpl. rewrite !run_bind.
  destruct (Restore.restore_variables fs w) as [[[]|e] w1]; [|reflexivity].
  rewrite !run_bind.
  destruct (Restore.restore_connections af fs w1) as [[[]|e] w2]; [|reflexivity].
  rewrite !run_bind.
  destruct (Restore.restore_pools af fs w2) as [[[]|e] w3]; [|reflexivity].
  rewrite !run_bind.
  destruct (Restore.restore_dags af fs w3) as [[[]|e] w4]; reflexivity.
Qed.


(** Writes of [Variable.set] that completed are not undone by a later
    failure of the loop. *)
Lemma Variable_set_loop_partial kvs1 kv kvs2 w w1 e w2 :
  let body := fun kv : string * json => Variable_set (fst kv) (snd kv) in
  for_each body kvs1 w = (Ok tt, w1) ->
  body kv w1 = (Raise e, w2) ->
  for_each body (kvs1 ++ kv :: kvs2) w = (Raise e, w2) /\ db w2 = db w1.
Proof.
  intros body H1 H2. split.
  - rewrite for_each_app, run_bind, H1. simpl. rewrite run_bind, H2. reflexivity.
  - unfold body, Variable_set in H2.
    destruct (faults w1) as [|[|] fs']; inversion H2; reflexivity.
Qed.


(** The pass of a session kind whose file holds a document. *)
Lemma session_pass_run af fs k j w :
  k <> Variable_ -> fs !! snapshot_name k = Some (Json j) ->
  Restore.pass af fs k w =
  (create_session k (session_body af k j) ;; print (done_line k)) w.
Proof.
  intros Hk Hf.
  assert (Hex : os_path_exists fs (snapshot_name k) = true).
  { unfold os_path_exists. rewrite Hf. reflexivity. }
  destruct k; [done| | |]; simpl in Hf, Hex;
    unfold Restore.pass, Restore.restore_connections,
      Restore.restore_pools, Restore.restore_dags;
    rewrite Hex; unfold json_load; rewrite Hf; reflexivity.
Qed.

Lemma pass_not_json af fs k w :
  fs !! snapshot_name k = Some NotJson ->
  Restore.pass af fs k w = (Raise JSONDecodeError, w).
Proof.
  intros Hf.
  assert (Hex : os_path_exists fs (snapshot_name k) = true).
  { unfold os_path_exists. rewrite Hf. reflexivity. }
  destruct k; simpl in Hf, Hex;
    unfold Restore.pass, Restore.restore_variables, Restore.restore_connections,
      Restore.restore_pools, Restore.restore_dags;
    rewrite Hex; unfold json_load; rewrite Hf; reflexivity.
Qed.

(** ** Upserts on tables *)

Section Upsert.
Variable k : kind.
Local Abbreviation col := (key_column k).

Lemma find_row_Some id rows i :
  find_row col id rows = Some i <->
  exists r, rows !! i = Some r /\ key_of col r = Some id /\
    forall j r', rows !! j = Some r' -> j < i -> key_of col r' <> Some id.
Proof.
  unfold find_row. split.
  - intros H. apply fmap_Some in H as ([i' r] & H & ->).
    apply list_find_Some in H. exists r. exact H.
  - intros (r & H). apply fmap_Some. exists (i, r). split; [|done].
    apply list_find_Some. exact H.
Qed.

Lemma find_row_None id rows :
  find_row col id rows = None <-> forall r, r ∈ rows -> key_of col r <> Some id.
Proof.
  unfold find_row. rewrite fmap_None, list_find_None, Forall_forall. done.
Qed.

Lemma find_row_lt id rows i : find_row col id rows = Some i -> i < length rows.
Proof.
  intros H. apply find_row_Some in H as (r & H & _).
  eapply lookup_lt_Some; eauto.
Qed.

Lemma find_row_app_l id rows new i :
  find_row col id rows = Some i -> find_row col id (rows ++ new) = Some i.
Proof.
  unfold find_row. intros H. apply fmap_Some in H as ([i' r] & H & ->).
  erewrite list_find_app_l by eauto. reflexivity.
Qed.

Lemma find_row_app_None id rows new :
  find_row col id rows = None -> find_row col id new = None ->
  find_row col id (rows ++ new) = None.
Proof.
  unfold find_row. rewrite !fmap_None. intros H1 H2.
  apply list_find_app_None. done.
Qed.

(** A lookup only depends on the identities of the rows. *)
Lemma find_row_keys id rows rows' :
  map (key_of col) rows = map (key_of col) rows' ->
  find_row col id rows = find_row col id rows'.
Proof.
  intros H. unfold find_row.
  pose proof (list_find_fmap (key_of col) (fun x => x = Some id) rows) as E1.
  pose proof (list_find_fmap (key_of col) (fun x => x = Some id) rows') as E2.
  change (key_of col <$> rows) with (map (key_of col) rows) in E1.
  change (key_of col <$> rows') with (map (key_of col) rows') in E2.
  rewrite H in E1. rewrite E1 in E2.
  unfold compose in E2.
  destruct (list_find (fun r => key_of col r = Some id) rows) as [[i r]|],
    (list_find (fun r => key_of col r = Some id) rows') as [[i' r']|];
    simpl in *; congruence.
Qed.

Lemma keys_alter (f : row -> row) i rows :
  (forall r, rows !! i = Some r -> key_of col (f r) = key_of col r) ->
  map (key_of col) (alter f i rows) = map (key_of col) rows.
Proof.
  revert i. induction rows as [|r rows IH]; intros [|i] H; simpl; try done.
  - f_equal. apply H. reflexivity.
  - f_equal. apply IH. intros r' Hr'. apply H. exact Hr'.
Qed.

(** *** Assignments on a row *)

Lemma apply_updates_other asg (r : row) f :
  f ∉ map fst asg -> apply_updates k asg r !! f = r !! f.
Proof.
  unfold apply_updates. revert r. induction asg as [|[g v] asg IH]; intros r Hf; simpl.
  - reflexivity.
  - simpl in Hf. apply not_elem_of_cons in Hf as [Hne Hf].
    rewrite IH by done. destruct (mem g (columns k)); [|reflexivity].
    apply lookup_insert_ne. congruence.
Qed.

Lemma apply_updates_agrees asg (r : row) f v :
  NoDup (map fst asg) -> (f, v) ∈ asg -> mem f (columns k) = true ->
  apply_updates k asg r !! f = Some v.
Proof.
  unfold apply_updates. revert r. induction asg as [|[g u] asg IH]; intros r Hnd Hin Hm; simpl.
  - inversion Hin.
  - simpl in Hnd. apply NoDup_cons in Hnd as [Hg Hnd].
    apply elem_of_cons in Hin as [Heq|Hin].
    + inversion Heq; subst g u. rewrite Hm.
      pose proof (apply_updates_other asg (<[f:=v]> r) f Hg) as E.
      unfold apply_updates in E. rewrite E. apply lookup_insert_eq.
    + apply IH; done.
Qed.


(** *** One upsert *)

Lemma upsert_keys p rows :
  plan_ok k p ->
  map (key_of col) (upsert k p rows) =
  match find_row col (p_id p) rows with
  | Some _ => map (key_of col) rows
  | None => map (key_of col) rows ++ [Some (p_id p)]
  end.
Proof.
  intros Hp. unfold upsert.
  destruct (find_row col (p_id p) rows) as [i|] eqn:Hf.
  - apply keys_alter. intros r Hr.
    apply find_row_Some in Hf as (r' & Hr' & Hk & _).
    rewrite Hr in Hr'. inversion Hr'; subst r'.
    rewrite Hk. by apply ok_upd_key.
  - rewrite map_app. simpl. by rewrite (ok_new_key _ _ Hp).
Qed.


(** An upsert of another identity leaves the first row of an identity in
    place and untouched. *)
Lemma upsert_preserves p rows id i r :
  plan_ok k p -> p_id p <> id ->
  find_row col id rows = Some i -> rows !! i = Some r ->
  find_row col id (upsert k p rows) = Some i /\ upsert k p rows !! i = Some r.
Proof.
  intros Hp Hne Hf Hr. unfold upsert.
  destruct (find_row col (p_id p) rows) as [j|] eqn:Hj.
  - split.
    + rewrite (find_row_keys _ _ rows); [done|].
      pose proof (upsert_keys p rows Hp) as E. unfold upsert in E.
      rewrite Hj in E. exact E.
    + rewrite list_lookup_alter_ne; [done|].
      intros ->. apply find_row_Some in Hj as (r' & Hr' & Hk & _).
      apply find_row_Some in Hf as (r'' & Hr'' & Hk' & _).
      rewrite Hr' in Hr''. inversion Hr''; subst. congruence.
  - split.
    + by apply find_row_app_l.
    + rewrite lookup_app_l; [done|]. eapply lookup_lt_Some; eauto.
Qed.


(** *** A whole pass *)

Lemma reconcile_rows_app ps1 ps2 rows :
  reconcile_rows k (ps1 ++ ps2) rows = reconcile_rows k ps2 (reconcile_rows k ps1 rows).
Proof. apply fold_left_app. Qed.

Lemma reconcile_preserves ps rows id i r :
  Forall (plan_ok k) ps -> id ∉ map p_id ps ->
  find_row col id rows = Some i -> rows !! i = Some r ->
  find_row col id (reconcile_rows k ps rows) = Some i /\
  reconcile_rows k ps rows !! i = Some r.
Proof.
  revert rows. induction ps as [|p ps IH]; intros rows Hok Hid Hf Hr; simpl.
  - done.
  - apply Forall_cons in Hok as [Hp Hok].
    simpl in Hid. apply not_elem_of_cons in Hid as [Hne Hid].
    destruct (upsert_preserves p rows id i r) as [Hf' Hr']; try done.
    apply IH; done.
Qed.




End Upsert.

(** ** The session loop is a series of upserts *)

Section Simulation.
Variable af : bool.
Variable k : kind.
Local Abbreviation col := (key_column k).

Lemma find_row_None_keys id rows :
  find_row col id rows = None <-> Some id ∉ map (key_of col) rows.
Proof.
  rewrite find_row_None. split.
  - intros H Hin. apply list_elem_of_fmap in Hin as (r & E & Hr).
    by apply (H r).
  - intros H r Hr E. apply H. rewrite <- E. by apply list_elem_of_fmap_2.
Qed.

Lemma flush_rows_ok new rows :
  pending_ok col rows new -> flush_rows col new rows = Ok (rows ++ new).
Proof.
  revert rows. induction new as [|r new IH]; intros rows [Hk Hnd Hfr]; simpl.
  - by rewrite app_nil_r.
  - apply Forall_cons in Hk as [[id Hid] Hk].
    simpl in Hnd. apply NoDup_cons in Hnd as [Hr Hnd].
    rewrite Hid.
    assert (Hnone : find_row col id rows = None).
    { apply find_row_None_keys. rewrite <- Hid. apply Hfr. left. }
    rewrite Hnone, IH; [by rewrite <- app_assoc|].
    split; [done..|]. intros r' Hr' Hin.
    rewrite map_app in Hin. apply elem_of_app in Hin as [Hin|Hin].
    + eapply Hfr; [right|]; eauto.
    + simpl in Hin. apply list_elem_of_singleton in Hin.
      apply Hr. rewrite <- Hin. by apply list_elem_of_fmap_2.
Qed.

Lemma for_each_setattr i asg s :
  for_each (fun kv : string * value => setattr k i (fst kv) (snd kv)) asg s =
  (Ok tt, mk_session (alter (apply_updates k asg) i (s_rows s)) (s_new s) (s_out s)).
Proof.
  revert s. induction asg as [|[f v] asg IH]; intros [rows new o]; simpl.
  - rewrite list_alter_id; reflexivity.
  - rewrite run_bind. unfold setattr at 1. simpl.
    destruct (mem f (columns k)) eqn:Hm; rewrite IH; simpl.
    + f_equal. f_equal.
      rewrite list_alter_alter_eq. apply list_alter_ext; [|done].
      intros r _. unfold apply_updates. simpl. by rewrite Hm.
    + f_equal. f_equal. apply list_alter_ext; [|done].
      intros r _. unfold apply_updates. simpl. by rewrite Hm.
Qed.

(** One step of the loop, seen on the table the commit will write. *)
Lemma upsert_step_sim p s :
  plan_ok k p ->
  pending_ok col (s_rows s) (s_new s) ->
  (af = false -> Some (p_id p) ∉ map (key_of col) (s_rows s) ->
     Some (p_id p) ∉ map (key_of col) (s_new s)) ->
  exists s',
    upsert_step af k p s = (Ok tt, s') /\
    pending_ok col (s_rows s') (s_new s') /\
    s_rows s' ++ s_new s' = upsert k p (s_rows s ++ s_new s) /\
    (af = false ->
       map (key_of col) (s_rows s') = map (key_of col) (s_rows s) /\
       map (key_of col) (s_new s') =
         map (key_of col) (s_new s) ++
         (if decide (Some (p_id p) ∈ map (key_of col) (s_rows s)) then [] else [Some (p_id p)])).
Proof.
  intros Hp Hpk Hfresh. destruct s as [rows new o]. simpl in *.
  unfold upsert_step, query_first. destruct af.
  - (* the session flushes, then looks the identity up in the whole view *)
    rewrite !run_bind. unfold flush. simpl.
    rewrite (flush_rows_ok new rows Hpk). simpl.
    destruct (find_row col (p_id p) (rows ++ new)) as [i|] eqn:Hf.
    + rewrite run_bind. simpl. rewrite for_each_setattr. simpl.
      eexists. split; [reflexivity|]. simpl. split; [|split; [|done]].
      * split; [constructor|constructor|]. intros r Hr. inversion Hr.
      * unfold upsert. rewrite Hf, app_nil_r. reflexivity.
    + rewrite run_bind. simpl.
      eexists. split; [reflexivity|]. simpl. split; [|split; [|done]].
      * split.
        -- constructor; [|constructor]. rewrite (ok_new_key _ _ Hp). eauto.
        -- simpl. apply NoDup_singleton.
        -- intros r Hr. apply list_elem_of_singleton in Hr as ->.
           rewrite (ok_new_key _ _ Hp). by apply find_row_None_keys.
      * unfold upsert. by rewrite Hf.
  - (* the lookup sees the table only *)
    rewrite !run_bind. simpl.
    destruct (find_row col (p_id p) rows) as [i|] eqn:Hf.
    + rewrite run_bind. simpl. rewrite for_each_setattr. simpl.
      assert (Hkeys : map (key_of col) (alter (apply_updates k (p_asg p)) i rows)
                      = map (key_of col) rows).
      { apply keys_alter. intros r Hr.
        apply find_row_Some in Hf as (r' & Hr' & Hk & _).
        rewrite Hr in Hr'. inversion Hr'; subst r'.
        rewrite Hk. by apply ok_upd_key. }
      assert (Hin : Some (p_id p) ∈ map (key_of col) rows).
      { destruct (decide (Some (p_id p) ∈ map (key_of col) rows)) as [?|Hn]; [done|].
        apply find_row_None_keys in Hn. congruence. }
      eexists. split; [reflexivity|]. simpl. split; [|split].
      * destruct Hpk as [H1 H2 H3]. split; [done..|].
        intros r Hr. rewrite Hkeys. by apply H3.
      * unfold upsert. rewrite (find_row_app_l _ _ _ _ _ Hf).
        rewrite alter_app_l; [done|]. eapply find_row_lt; eauto.
      * intros _. rewrite decide_True by done. by rewrite app_nil_r.
    + rewrite run_bind. simpl.
      pose proof Hf as Hn. apply find_row_None_keys in Hn.
      specialize (Hfresh eq_refl Hn).
      eexists. split; [reflexivity|]. simpl. split; [|split].
      * destruct Hpk as [H1 H2 H3]. split.
        -- apply Forall_app. split; [done|].
           constructor; [|constructor]. rewrite (ok_new_key _ _ Hp). eauto.
        -- rewrite map_app. simpl. rewrite (ok_new_key _ _ Hp).
           apply NoDup_app. split; [done|]. split; [|apply NoDup_singleton].
           intros x Hx Hx'. apply list_elem_of_singleton in Hx' as ->. done.
        -- intros r Hr. apply elem_of_app in Hr as [Hr|Hr]; [by apply H3|].
           apply list_elem_of_singleton in Hr as ->.
           by rewrite (ok_new_key _ _ Hp).
      * unfold upsert. rewrite find_row_app_None; [by rewrite app_assoc|done|].
        by apply find_row_None_keys.
      * intros _. rewrite decide_False by done.
        rewrite map_app. simpl. by rewrite (ok_new_key _ _ Hp).
Qed.

Lemma upsert_loop ps s :
  Forall (plan_ok k) ps ->
  pending_ok col (s_rows s) (s_new s) ->
  (af = false ->
     fresh_ok (map (key_of col) (s_rows s)) (map (key_of col) (s_new s)) ps) ->
  exists s',
    for_each (upsert_step af k) ps s = (Ok tt, s') /\
    pending_ok col (s_rows s') (s_new s') /\
    s_rows s' ++ s_new s' = reconcile_rows k ps (s_rows s ++ s_new s).
Proof.
  revert s. induction ps as [|p ps IH]; intros s Hok Hpk Hfr; simpl.
  - exists s. done.
  - apply Forall_cons in Hok as [Hp Hok].
    destruct (upsert_step_sim p s Hp Hpk) as (s1 & Hrun & Hpk1 & Hview & Hkeys).
    { intros Haf Hn. specialize (Hfr Haf). simpl in Hfr.
      rewrite decide_False in Hfr by done. apply Hfr. }
    destruct (IH s1 Hok Hpk1) as (s' & Hrun' & Hpk' & Hview').
    { intros Haf. specialize (Hfr Haf). destruct (Hkeys Haf) as [E1 E2].
      rewrite E1, E2. simpl in Hfr.
      destruct (decide (Some (p_id p) ∈ map (key_of col) (s_rows s))).
      - by rewrite app_nil_r.
      - apply Hfr. }
    exists s'. rewrite run_bind, Hrun. split; [done|]. split; [done|].
    by rewrite Hview', Hview.
Qed.

Lemma fresh_ok_nodup taken pend ps :
  NoDup (map p_id ps) ->
  (forall p, p ∈ ps -> Some (p_id p) ∉ pend) ->
  fresh_ok taken pend ps.
Proof.
  revert pend. induction ps as [|p ps IH]; intros pend Hnd Hp; simpl; [done|].
  simpl in Hnd. apply NoDup_cons in Hnd as [Hid Hnd].
  assert (Hrest : fresh_ok taken (pend ++ [Some (p_id p)]) ps).
  { apply IH; [done|]. intros q Hq Hin.
    apply elem_of_app in Hin as [Hin|Hin].
    - eapply Hp; [right|]; eauto.
    - apply list_elem_of_singleton in Hin. inversion Hin as [E].
      apply Hid. rewrite <- E. by apply list_elem_of_fmap_2. }
  destruct (decide _).
  - apply IH; [done|]. intros q Hq. apply Hp. by right.
  - split; [apply Hp; left|done].
Qed.


(** The session block over well-formed records commits the reconciled
    table, provided the store is available. *)
Lemma upsert_session ps w :
  Forall (plan_ok k) ps ->
  (af = false -> fresh_ok (map (key_of col) (table k (db w))) [] ps) ->
  head (faults w) <> Some true ->
  exists o,
    create_session k (for_each (upsert_step af k) ps) w =
    (Ok tt, mk_world (set_table k (reconcile_rows k ps (table k (db w))) (db w))
                     (out w ++ o) (tail (faults w))) /\
    Restore.complete_marker ∉ o.
Proof.
  intros Hok Hfr Hfault.
  set (s0 := mk_session (table k (db w)) [] (out w)).
  destruct (upsert_loop ps s0 Hok) as (s' & Hrun & Hpk & Hview).
  { split; [constructor|constructor|]. intros r Hr. inversion Hr. }
  { exact Hfr. }
  simpl in Hview. rewrite app_nil_r in Hview.
  assert (Hg : grows (for_each (upsert_step af k) ps)).
  { apply grows_for_each. intros p. unfold upsert_step.
    apply grows_bind; [apply grows_query_first|]. intros [i|].
    - apply grows_bind; [|intros _; apply grows_for_each; intros; apply grows_setattr].
      apply grows_sprint. destruct k; not_marker.
    - apply grows_bind; [|intros _; apply grows_add].
      apply grows_sprint. destruct k; not_marker. }
  destruct (Hg s0) as (o & Ho & Hm). rewrite Hrun in Ho. simpl in Ho.
  exists o. split; [|done].
  unfold create_session. fold s0. rewrite Hrun.
  rewrite (flush_rows_ok _ _ Hpk), Hview, Ho.
  destruct (faults w) as [|[|] fs']; simpl in *; done.
Qed.

End Simulation.

(** ** Dicts *)

Lemma mem_elem_of x l : mem x l = true <-> x ∈ l.
Proof.
  unfold mem. rewrite existsb_exists. split.
  - intros (y & Hy & E). apply String.eqb_eq in E as ->. by apply list_elem_of_In.
  - intros H. exists x. split; [by apply list_elem_of_In|apply String.eqb_refl].
Qed.

Lemma mem_not_elem_of x l : mem x l = false <-> x ∉ l.
Proof.
  rewrite <- mem_elem_of. destruct (mem x l); split; congruence.
Qed.

Lemma nodupb_NoDup l : nodupb l = true -> NoDup l.
Proof.
  induction l as [|x l IH]; simpl; intros H; [constructor|].
  apply andb_true_iff in H as [H1 H2]. apply negb_true_iff in H1.
  constructor; [by apply mem_not_elem_of|auto].
Qed.

Lemma dict_get_Some_keys {A} f (d : list (string * A)) v :
  dict_get f d = Some v -> f ∈ dict_keys d.
Proof.
  induction d as [|[g u] d IH]; simpl; [done|].
  destruct (String.eqb f g) eqn:E.
  - apply String.eqb_eq in E as ->. intros _. left.
  - intros H. right. auto.
Qed.

Lemma dict_get_keys {A} f (d : list (string * A)) :
  f ∈ dict_keys d -> is_Some (dict_get f d).
Proof.
  induction d as [|[g u] d IH]; simpl; intros H; [inversion H|].
  destruct (String.eqb f g) eqn:E; [eauto|].
  apply String.eqb_neq in E. apply elem_of_cons in H as [?|?]; [done|auto].
Qed.

Lemma dict_get_elem_of {A} f (d : list (string * A)) v :
  NoDup (dict_keys d) -> (f, v) ∈ d -> dict_get f d = Some v.
Proof.
  induction d as [|[g u] d IH]; simpl; intros Hnd Hin; [inversion Hin|].
  apply NoDup_cons in Hnd as [Hg Hnd].
  apply elem_of_cons in Hin as [E|Hin].
  - inversion E; subst. by rewrite String.eqb_refl.
  - destruct (String.eqb f g) eqn:E; [|auto].
    apply String.eqb_eq in E as ->. exfalso. apply Hg.
    change g with (fst (g, v)). by apply list_elem_of_fmap_2.
Qed.

Lemma dict_get_elem_of_inv {A} f (d : list (string * A)) v :
  dict_get f d = Some v -> (f, v) ∈ d.
Proof.
  induction d as [|[g u] d IH]; simpl; [done|].
  destruct (String.eqb f g) eqn:E.
  - apply String.eqb_eq in E as ->. intros [= ->]. left.
  - intros H. right. auto.
Qed.

Lemma dict_get_map {A B} (h : A -> B) f (d : list (string * A)) :
  dict_get f (map (fun kv => (fst kv, h (snd kv))) d) = h <$> dict_get f d.
Proof.
  induction d as [|[g u] d IH]; simpl; [done|].
  destruct (String.eqb f g); [done|auto].
Qed.

Lemma dict_keys_map {A B} (h : A -> B) (d : list (string * A)) :
  dict_keys (map (fun kv => (fst kv, h (snd kv))) d) = dict_keys d.
Proof. unfold dict_keys. rewrite map_map. reflexivity. Qed.

Lemma dict_get_set {A} f g (v : A) d :
  dict_get f (dict_set g v d) = if String.eqb f g then Some v else dict_get f d.
Proof.
  induction d as [|[h u] d IH]; simpl.
  - destruct (String.eqb f g); reflexivity.
  - destruct (String.eqb g h) eqn:E; simpl.
    + apply String.eqb_eq in E as ->. destruct (String.eqb f h); reflexivity.
    + rewrite IH. destruct (String.eqb f h) eqn:E'; [|reflexivity].
      apply String.eqb_eq in E' as ->. by rewrite String.eqb_sym, E.
Qed.

Lemma dict_keys_set {A} g (v : A) d :
  g ∈ dict_keys d -> dict_keys (dict_set g v d) = dict_keys d.
Proof.
  induction d as [|[h u] d IH]; simpl; intros H; [inversion H|].
  destruct (String.eqb g h) eqn:E; simpl; [reflexivity|].
  apply String.eqb_neq in E. apply elem_of_cons in H as [?|?]; [done|].
  f_equal. auto.
Qed.

(** A row built from keywords reads like the dict of the keywords. *)
Lemma lookup_list_to_map_dict (kw : list (string * value)) f :
  (list_to_map kw : row) !! f = dict_get f kw.
Proof.
  induction kw as [|[g u] kw IH]; simpl; [apply lookup_empty|].
  destruct (String.eqb f g) eqn:E.
  - apply String.eqb_eq in E as ->. apply lookup_insert_eq.
  - apply String.eqb_neq in E. rewrite lookup_insert_ne by congruence. done.
Qed.

(** ** Well-formed records *)

Lemma valid_record_inv k c :
  valid_record k c = true ->
  exists d id,
    c = JDict d /\ NoDup (dict_keys d) /\
    dict_get (key_column k) d = Some (JStr id) /\
    (forall f, f ∈ required k -> is_Some (dict_get f d)) /\
    (forall f, f ∈ dict_keys d -> f ∈ init_args k) /\
    (k = DagModel -> forall f, f ∈ Restore.time_fields ->
       exists j, dict_get f d = Some j /\ coercible j = true).
Proof.
  destruct c as [| | | |l|d]; simpl; try discriminate. intros H.
  rewrite !andb_true_iff in H. destruct H as ((((H1 & H2) & H3) & H4) & H5).
  apply bool_decide_eq_true in H2 as [id Hid].
  exists d, id. split; [done|]. split; [by apply nodupb_NoDup|]. split.
  { unfold string_id in Hid. destruct (dict_get (key_column k) d) as [[]|]; congruence. }
  rewrite forallb_forall in H3, H4. split; [|split].
  - intros f Hf. apply dict_get_keys, mem_elem_of, H3. by apply list_elem_of_In.
  - intros f Hf. apply mem_elem_of, H4. by apply list_elem_of_In.
  - intros -> f Hf.
    assert (H6 : forallb (fun f => match dict_get f d with
                                   | Some j => coercible j
                                   | None => false
                                   end) Restore.time_fields = true) by exact H5.
    rewrite forallb_forall in H6.
    specialize (H6 f (proj1 (list_elem_of_In _ _) Hf)).
    destruct (dict_get f d) as [j|]; [eauto|discriminate].
Qed.

Lemma valid_record_id k c :
  valid_record k c = true ->
  exists id, record_id k c = Some id /\ p_id (record_plan k c) = id.
Proof.
  intros H. apply valid_record_inv in H as (d & id & -> & _ & Hid & _).
  exists id. simpl. unfold string_id. rewrite Hid. done.
Qed.

(** *** The coercion loop *)

Lemma coerce_slot_keys f d : dict_keys (coerce_slot f d) = dict_keys d.
Proof.
  unfold coerce_slot. destruct (dict_get f d) as [[j| |]|] eqn:E; try reflexivity.
  apply dict_keys_set. eapply dict_get_Some_keys; eauto.
Qed.

Lemma coerce_slot_other f g d : f <> g -> dict_get f (coerce_slot g d) = dict_get f d.
Proof.
  intros Hne. unfold coerce_slot.
  destruct (dict_get g d) as [[j| |]|]; try reflexivity.
  rewrite dict_get_set. apply String.eqb_neq in Hne. by rewrite Hne.
Qed.

Lemma coerce_slots_keys fields d :
  dict_keys (fold_left (fun d' f => coerce_slot f d') fields d) = dict_keys d.
Proof.
  revert d. induction fields as [|f fields IH]; intros d; simpl; [done|].
  by rewrite IH, coerce_slot_keys.
Qed.

Lemma coerce_slots_other fields d f :
  f ∉ fields ->
  dict_get f (fold_left (fun d' f => coerce_slot f d') fields d) = dict_get f d.
Proof.
  revert d. induction fields as [|g fields IH]; intros d Hf; simpl; [done|].
  apply not_elem_of_cons in Hf as [Hne Hf].
  by rewrite IH, coerce_slot_other.
Qed.


(** On slots it accepts, the coercion loop completes, with each timestamp
    slot replaced by its native value. *)
Lemma coerce_times_ok fields d :
  NoDup fields ->
  (forall f, f ∈ fields -> exists j, dict_get f d = Some (VJson j) /\ coercible j = true) ->
  Restore.coerce_times fields d = Ok (fold_left (fun d' f => coerce_slot f d') fields d).
Proof.
  revert d. induction fields as [|f fields IH]; intros d Hnd H; simpl; [done|].
  apply NoDup_cons in Hnd as [Hf Hnd].
  destruct (H f) as (j & Hj & Hc); [left|].
  assert (Hrest : forall v g, g ∈ fields ->
            exists j', dict_get g (dict_set f v d) = Some (VJson j') /\ coercible j' = true).
  { intros v g Hg. destruct (H g) as (j' & Hj' & Hc'); [by right|].
    exists j'. split; [|done]. rewrite dict_get_set.
    destruct (String.eqb g f) eqn:E; [|done].
    apply String.eqb_eq in E as ->. done. }
  unfold slot, coerce_slot. rewrite Hj.
  change (truthy_value (VJson j)) with (truthy j).
  unfold coercible in Hc. unfold coerce_value.
  destruct (truthy j).
  - destruct (fromisoformat (VJson j)) as [t|e]; [|discriminate].
    apply IH; [done|apply Hrest].
  - apply IH; [done|apply Hrest].
Qed.

Lemma time_fields_NoDup : NoDup Restore.time_fields.
Proof. apply nodupb_NoDup. reflexivity. Qed.

Section Records.
Variable af : bool.

Lemma dag_slots_ok d :
  valid_record DagModel (JDict d) = true ->
  Restore.coerce_times Restore.time_fields (map (fun kv => (fst kv, VJson (snd kv))) d)
  = Ok (dag_slots d).
Proof.
  intros H. apply valid_record_inv in H as (d' & id & [= <-] & _ & _ & _ & _ & Hc).
  apply coerce_times_ok; [apply time_fields_NoDup|].
  intros f Hf. destruct (Hc eq_refl f Hf) as (j & Hj & Hcj).
  exists j. split; [|done]. rewrite dict_get_map, Hj. done.
Qed.

Lemma dag_slots_keys d : dict_keys (dag_slots d) = dict_keys d.
Proof. unfold dag_slots. by rewrite coerce_slots_keys, dict_keys_map. Qed.

Lemma dag_slots_other d f :
  f ∉ Restore.time_fields -> dict_get f (dag_slots d) = VJson <$> dict_get f d.
Proof.
  intros Hf. unfold dag_slots. by rewrite coerce_slots_other, dict_get_map.
Qed.


Lemma construct_ok k (kw : list (string * value)) :
  (forall f, f ∈ dict_keys kw -> f ∈ init_args k) ->
  construct k kw = Ok (list_to_map kw).
Proof.
  intros H. unfold construct.
  replace (forallb _ _) with true; [done|]. symmetry.
  apply forallb_forall. intros f Hf. apply mem_elem_of, H. by apply list_elem_of_In.
Qed.

(** On a well-formed record the loop body of each session kind is the
    upsert of the record's plan. *)
Lemma restore_connection_plan c s :
  valid_record Connection c = true ->
  Restore.restore_connection af c s = upsert_step af Connection (record_plan Connection c) s.
Proof.
  intros H. apply valid_record_inv in H as (d & id & -> & Hnd & Hid & Hreq & Hargs & _).
  simpl in Hid.
  destruct (Hreq "conn_type") as [v1 E1]; [by apply mem_elem_of|].
  destruct (Hreq "host") as [v2 E2]; [by apply mem_elem_of|].
  destruct (Hreq "login") as [v3 E3]; [by apply mem_elem_of|].
  destruct (Hreq "password") as [v4 E4]; [by apply mem_elem_of|].
  destruct (Hreq "schema") as [v5 E5]; [by apply mem_elem_of|].
  destruct (Hreq "port") as [v6 E6]; [by apply mem_elem_of|].
  destruct (Hreq "extra") as [v7 E7]; [by apply mem_elem_of|].
  unfold Restore.restore_connection, upsert_step, record_plan, plan_of, string_id, getitem.
  simpl key_column. rewrite Hid. cbn [p_id p_asg p_new].
  change (default EmptyString (Some id)) with id.
  rewrite run_bind, run_lift, !(run_bind (query_first af "conn_id" (JStr id))).
  destruct (query_first af "conn_id" (JStr id) s) as [[[e|]|err] s1]; [| |done].
  - rewrite !run_bind. cbn [print fst snd].
    rewrite for_each_setattr. cbn [map required conn_fields].
    rewrite E1, E2, E3, E4, E5, E6, E7.
    unfold mbind, M_bind, lift, setattr. cbn -[alter insert].
    rewrite !list_alter_alter_eq. reflexivity.
  - unfold mbind, M_bind, lift, print, kwargs. cbn beta iota.
    rewrite construct_ok; [reflexivity|].
    intros f Hf. apply Hargs. by rewrite dict_keys_map in Hf.
Qed.

Lemma restore_pool_plan c s :
  valid_record Pool c = true ->
  Restore.restore_pool af c s = upsert_step af Pool (record_plan Pool c) s.
Proof.
  intros H. apply valid_record_inv in H as (d & id & -> & Hnd & Hid & Hreq & Hargs & _).
  simpl in Hid.
  destruct (Hreq "slots") as [v1 E1]; [by apply mem_elem_of|].
  destruct (Hreq "description") as [v2 E2]; [by apply mem_elem_of|].
  unfold Restore.restore_pool, upsert_step, record_plan, plan_of, string_id, getitem.
  simpl key_column. rewrite Hid. cbn [p_id p_asg p_new].
  change (default EmptyString (Some id)) with id.
  rewrite run_bind, run_lift, !(run_bind (query_first af "pool" (JStr id))).
  destruct (query_first af "pool" (JStr id) s) as [[[e|]|err] s1]; [| |done].
  - rewrite !run_bind. cbn [print fst snd].
    rewrite for_each_setattr. cbn [map required pool_fields].
    rewrite E1, E2.
    unfold mbind, M_bind, lift, setattr. cbn -[alter insert].
    rewrite !list_alter_alter_eq. reflexivity.
  - unfold mbind, M_bind, lift, print, kwargs. cbn beta iota.
    rewrite construct_ok; [reflexivity|].
    intros f Hf. apply Hargs. by rewrite dict_keys_map in Hf.
Qed.

Lemma restore_dag_plan c s :
  valid_record DagModel c = true ->
  Restore.restore_dag af c s = upsert_step af DagModel (record_plan DagModel c) s.
Proof.
  intros H. pose proof (dag_slots_ok) as Hco.
  pose proof H as H'.
  apply valid_record_inv in H as (d & id & -> & Hnd & Hid & Hreq & Hargs & _).
  specialize (Hco d H'). simpl in Hid.
  assert (Hslot : slot (dag_slots d) "dag_id" = Ok (VJson (JStr id))).
  { unfold slot. rewrite dag_slots_other, Hid; [done|].
    apply mem_not_elem_of. reflexivity. }
  unfold Restore.restore_dag, upsert_step, record_plan, plan_of, string_id, getitem.
  simpl key_column. rewrite Hid. cbn [p_id p_asg p_new].
  change (default EmptyString (Some id)) with id.
  rewrite run_bind, run_lift, !(run_bind (query_first af "dag_id" (JStr id))).
  destruct (query_first af "dag_id" (JStr id) s) as [[[e|]|err] s1]; [| |done].
  - cbn [kwargs]. rewrite !run_bind, run_lift, Hco, !run_bind, run_lift, Hslot.
    reflexivity.
  - cbn [kwargs]. rewrite !run_bind, run_lift, Hco, !run_bind, run_lift, Hslot.
    unfold mbind, M_bind, lift, print. cbn beta iota.
    rewrite construct_ok; [reflexivity|].
    intros f Hf. apply Hargs. by rewrite dag_slots_keys in Hf.
Qed.

Lemma record_body_plan k c s :
  k <> Variable_ -> valid_record k c = true ->
  record_body af k c s = upsert_step af k (record_plan k c) s.
Proof.
  intros Hk H. destruct k; [done| | |]; simpl.
  - by apply restore_connection_plan.
  - by apply restore_pool_plan.
  - by apply restore_dag_plan.
Qed.

End Records.

(** ** Plans of well-formed records *)

Lemma key_of_lookup col (r : row) id :
  r !! col = Some (VJson (JStr id)) -> key_of col r = Some id.
Proof. unfold key_of. by intros ->. Qed.

Lemma required_NoDup k : NoDup (required k).
Proof. apply nodupb_NoDup. by destruct k. Qed.

Lemma key_column_not_required k : k <> DagModel -> key_column k ∉ required k.
Proof. intros Hk. apply mem_not_elem_of. by destruct k. Qed.

Lemma record_plan_ok k c :
  k <> Variable_ -> valid_record k c = true -> plan_ok k (record_plan k c).
Proof.
  intros Hk H.
  apply valid_record_inv in H as (d & id & -> & Hnd & Hid & Hreq & Hargs & Hco).
  change (record_plan k (JDict d)) with (plan_of k d).
  assert (Hpid : p_id (plan_of k d) = id).
  { unfold plan_of, string_id. simpl. by rewrite Hid. }
  destruct (decide (k = DagModel)) as [->|Hd].
  - (* a DAG assigns every slot of the record, its identity included *)
    simpl in Hid.
    assert (Hkeys : map fst (dag_slots d) = dict_keys d) by apply dag_slots_keys.
    assert (Hkey : dict_get "dag_id" (dag_slots d) = Some (VJson (JStr id))).
    { rewrite dag_slots_other, Hid; [done|]. by apply mem_not_elem_of. }
    assert (Hasg : p_asg (plan_of DagModel d) = dag_slots d) by done.
    assert (Hnew : p_new (plan_of DagModel d) = list_to_map (dag_slots d)) by done.
    split; rewrite ?Hpid, ?Hasg, ?Hnew.
    + by rewrite Hkeys.
    + apply key_of_lookup. by rewrite lookup_list_to_map_dict.
    + intros f v Hin _. rewrite Hasg in Hin. rewrite lookup_list_to_map_dict.
      apply dict_get_elem_of; [|done]. unfold dict_keys. by rewrite Hkeys.
    + intros r _. apply key_of_lookup.
      apply (apply_updates_agrees DagModel); [by rewrite Hkeys| |done].
      by apply dict_get_elem_of_inv.
  - assert (Hasg : p_asg (plan_of k d) =
                   map (fun f => (f, VJson (default JNull (dict_get f d)))) (required k)).
    { by destruct k. }
    assert (Hnew : p_new (plan_of k d) =
                   list_to_map (map (fun kv => (fst kv, VJson (snd kv))) d)).
    { by destruct k. }
    assert (Hfst : map fst (p_asg (plan_of k d)) = required k).
    { rewrite Hasg, map_map. simpl. apply map_id. }
    split; rewrite ?Hpid.
    + rewrite Hfst. apply required_NoDup.
    + rewrite Hnew. apply key_of_lookup.
      by rewrite lookup_list_to_map_dict, dict_get_map, Hid.
    + intros f v Hin _. rewrite Hasg in Hin.
      apply list_elem_of_fmap in Hin as (g & [= -> ->] & Hg).
      rewrite Hnew, lookup_list_to_map_dict, dict_get_map.
      destruct (Hreq g Hg) as [x ->]. done.
    + intros r Hr. unfold key_of.
      rewrite apply_updates_other; [exact Hr|].
      rewrite Hfst. by apply key_column_not_required.
Qed.

Lemma record_plans_ok k cs :
  k <> Variable_ -> forallb (valid_record k) cs = true ->
  Forall (plan_ok k) (map (record_plan k) cs).
Proof.
  intros Hk H. apply Forall_fmap, Forall_forall. intros c Hc.
  apply record_plan_ok; [done|].
  rewrite forallb_forall in H. apply H. by apply list_elem_of_In.
Qed.

Lemma record_plans_ids k cs :
  forallb (valid_record k) cs = true ->
  map p_id (map (record_plan k) cs) = omap (record_id k) cs.
Proof.
  induction cs as [|c cs IH]; simpl; [done|]. intros H.
  apply andb_true_iff in H as [Hc H].
  destruct (valid_record_id k c Hc) as (id & E1 & E2).
  rewrite E1, E2, IH; done.
Qed.

(** ** The passes over well-formed snapshots *)

Lemma for_each_map {S A B} (f : A -> M S unit) (g : B -> M S unit) (h : A -> B) l s :
  (forall x s, x ∈ l -> f x s = g (h x) s) ->
  for_each f l s = for_each g (map h l) s.
Proof.
  revert s. induction l as [|x l IH]; intros s H; simpl; [done|].
  rewrite !run_bind, H by left.
  destruct (g (h x) s) as [[[]|e] s1]; [|done].
  apply IH. intros y s' Hy. apply H. by right.
Qed.

Lemma session_body_plans af k cs s :
  k <> Variable_ -> forallb (valid_record k) cs = true ->
  session_body af k (JList cs) s =
  for_each (upsert_step af k) (map (record_plan k) cs) s.
Proof.
  intros Hk H.
  assert (E : session_body af k (JList cs) s = for_each (record_body af k) cs s).
  { by destruct k. }
  rewrite E. apply for_each_map. intros c s' Hc.
  apply record_body_plan; [done|].
  rewrite forallb_forall in H. apply H. by apply list_elem_of_In.
Qed.

(** The pass of a session kind over well-formed records writes the
    reconciled table. *)
Lemma session_pass_valid af fs k cs w :
  k <> Variable_ ->
  fs !! snapshot_name k = Some (Json (JList cs)) ->
  forallb (valid_record k) cs = true ->
  (af = false ->
     fresh_ok (map (key_of (key_column k)) (table k (db w))) [] (map (record_plan k) cs)) ->
  head (faults w) <> Some true ->
  exists o,
    Restore.pass af fs k w =
    (Ok tt, mk_world (set_table k (reconcile_rows k (map (record_plan k) cs) (table k (db w))) (db w))
                     (out w ++ o) (tail (faults w))) /\
    Restore.complete_marker ∉ o.
Proof.
  intros Hk Hf Hv Hfr Hfault.
  rewrite (session_pass_run af fs k (JList cs)) by done.
  destruct (upsert_session af k (map (record_plan k) cs) w) as (o & Hrun & Ho);
    [by apply record_plans_ok|done|done|].
  assert (E : create_session k (session_body af k (JList cs)) w =
              create_session k (for_each (upsert_step af k) (map (record_plan k) cs)) w).
  { unfold create_session. by rewrite session_body_plans. }
  rewrite run_bind, E, Hrun.
  exists (o ++ [done_line k]). split.
  - unfold print. simpl. by rewrite app_assoc.
  - rewrite elem_of_app, list_elem_of_singleton. intros [?|E']; [done|].
    destruct k; discriminate E'.
Qed.

(** *** Variables *)






Lemma filter_none {A} (P : A -> Prop) `{!forall x, Decision (P x)} (l : list A) :
  (forall x, x ∈ l -> ~ P x) -> filter P l = [].
Proof.
  induction l as [|x l IH]; intros Hl; [done|].
  rewrite filter_cons_False by (apply Hl; left).
  apply IH. intros y Hy. apply Hl. by right.
Qed.



(** ** The whole run over well-formed files *)








(** ** What the update of a record leaves in its row *)

Lemma required_columns k f : f ∈ required k -> mem f (columns k) = true.
Proof.
  intros Hf. apply mem_elem_of in Hf.
  destruct k; simpl in *; try discriminate;
    repeat (apply orb_true_iff in Hf as [Hf|Hf];
            [apply String.eqb_eq in Hf as ->; reflexivity|]);
    discriminate.
Qed.



Section Exact.
Variable k : kind.

(** With distinct identities, the row of an identity that was in the table
    is, after the pass, that row with the record's assignments applied. *)
Lemma reconcile_exact ps p rows i r0 :
  Forall (plan_ok k) ps -> NoDup (map p_id ps) -> p ∈ ps ->
  find_row (key_column k) (p_id p) rows = Some i -> rows !! i = Some r0 ->
  find_row (key_column k) (p_id p) (reconcile_rows k ps rows) = Some i /\
  reconcile_rows k ps rows !! i = Some (apply_updates k (p_asg p) r0).
Proof.
  intros Hok Hnd Hp Hf Hr.
  apply list_elem_of_split in Hp as (ps1 & ps2 & ->).
  rewrite map_app in Hnd. simpl in Hnd.
  apply NoDup_app in Hnd as (_ & Hdisj & Hnd).
  apply NoDup_cons in Hnd as [Hid2 _].
  assert (Hid1 : p_id p ∉ map p_id ps1).
  { intros Hin. apply (Hdisj _ Hin). left. }
  apply Forall_app in Hok as [Hok1 Hok]. apply Forall_cons in Hok as [Hokp Hok2].
  rewrite reconcile_rows_app. simpl.
  destruct (reconcile_preserves k ps1 rows _ i r0 Hok1 Hid1 Hf Hr) as [Hf1 Hr1].
  apply reconcile_preserves; [done|done| |].
  - rewrite (find_row_keys k _ _ (reconcile_rows k ps1 rows)); [done|].
    rewrite upsert_keys, Hf1 by done. reflexivity.
  - unfold upsert. rewrite Hf1, list_lookup_alter_eq, Hr1. reflexivity.
Qed.

End Exact.

(** * The claims *)

(** ** Missing files and the completion marker *)

(** C6.  When none of the four snapshot files exists, the run completes
    without error, prints the four missing-file warnings and the completion
    marker, and leaves the store (and everything else) as it was. *)
Theorem C6_no_files_no_change af fs w :
  (forall k, fs !! snapshot_name k = None) ->
  Restore.restore af fs w =
  (Ok tt,
   mk_world (db w)
     (out w ++ ["⚠️ variables_backup.json not found";
                "⚠️ connections_backup.json not found";
                "⚠️ pools_backup.json not found";
                "⚠️ dag_models_backup.json not found";
                "🎉 Restore complete!"])
     (faults w)).
Proof.
  intros H. rewrite restore_passes. unfold all_kinds. cbn [for_each].
  rewrite !run_bind, (pass_missing af fs Variable_) by apply H.
  rewrite !run_bind, (pass_missing af fs Connection) by apply H.
  rewrite !run_bind, (pass_missing af fs Pool) by apply H.
  rewrite !run_bind, (pass_missing af fs DagModel) by apply H.
  unfold print, mret, M_ret. simpl. rewrite <- !app_assoc. reflexivity.
Qed.

(** C9, as the code has it.  The completion marker is printed exactly when
    the run completes: the lines a run prints are lines other than the
    marker, followed by the marker if no pass raised and by nothing if one
    did. *)
Theorem C9_marker_iff_completed af fs w :
  exists o,
    (Restore.complete_marker ∉ o) /\
    out (snd (Restore.restore af fs w)) =
    out w ++ o ++ match fst (Restore.restore af fs w) with
                  | Ok _ => [Restore.complete_marker]
                  | Raise _ => []
                  end.
Proof.
  rewrite restore_passes, run_bind.
  assert (Hg : grows (for_each (Restore.pass af fs) all_kinds)).
  { apply grows_for_each. intros k. apply grows_pass. }
  destruct (Hg w) as (o & Ho & Hm).
  change (console (snd (for_each (Restore.pass af fs) all_kinds w)))
    with (out (snd (for_each (Restore.pass af fs) all_kinds w))) in Ho.
  change (console w) with (out w) in Ho.
  exists o. split; [done|].
  destruct (for_each (Restore.pass af fs) all_kinds w) as [[[]|e] w1]; simpl in *.
  - by rewrite Ho, app_assoc.
  - by rewrite Ho, app_nil_r.
Qed.

(** ** Failures *)


(** C7, as the code has it.  The three kinds restored inside a session
    block are all or nothing: when the pass raises, the store is as it was;
    when it completes, the loop ran over the whole snapshot and the table
    was written once, by the commit.  The variables are written by
    [Variable.set], one unit of work per variable: when one of them raises,
    the run stops there and what the earlier ones committed stays. *)
Theorem C7_session_kinds_atomic af fs k w :
  k <> Variable_ ->
  match Restore.pass af fs k w with
  | (Raise _, w') => db w' = db w
  | (Ok _, w') =>
      (fs !! snapshot_name k = None /\ db w' = db w) \/
      exists j s rows,
        fs !! snapshot_name k = Some (Json j) /\
        session_body af k j (mk_session (table k (db w)) [] (out w)) = (Ok tt, s) /\
        flush_rows (key_column k) (s_new s) (s_rows s) = Ok rows /\
        db w' = set_table k rows (db w)
  end /\
  forall kvs1 kv kvs2 w0 w1 e w2,
    let body := fun kv : string * json => Variable_set (fst kv) (snd kv) in
    for_each body kvs1 w0 = (Ok tt, w1) ->
    body kv w1 = (Raise e, w2) ->
    for_each body (kvs1 ++ kv :: kvs2) w0 = (Raise e, w2) /\ db w2 = db w1.
Proof.
  intros Hk. split; [|apply Variable_set_loop_partial].
  destruct (Restore.pass af fs k w) as [[[]|e] w'] eqn:Hp.
  - destruct (fs !! snapshot_name k) as [[|j]|] eqn:Hf.
    + rewrite pass_not_json in Hp by done. discriminate.
    + right. rewrite (session_pass_run af fs k j) in Hp by done.
      rewrite run_bind in Hp.
      pose proof (create_session_spec k (session_body af k j) w) as Hs.
      destruct (create_session k (session_body af k j) w) as [[[]|e] w1]; [|discriminate].
      destruct Hs as (s & rows & Hb & Hfl & ->).
      inversion Hp; subst. exists j, s, rows. done.
    + left. rewrite pass_missing in Hp by done. inversion Hp; subst. done.
  - eapply session_pass_rollback; eauto.
Qed.

(** ** Reconciliation of well-formed snapshots *)

Lemma record_plan_elem_of k c cs :
  c ∈ cs -> record_plan k c ∈ map (record_plan k) cs.
Proof. intros H. by apply list_elem_of_fmap_2. Qed.

Lemma record_id_plan k c id :
  valid_record k c = true -> record_id k c = Some id -> p_id (record_plan k c) = id.
Proof.
  intros Hv Hid. destruct (valid_record_id k c Hv) as (id' & E1 & E2). congruence.
Qed.







(** ** The DAG records: capture, coercion, schedule *)

Lemma dump_record_keys d r : Backup.dump_record d = Ok r -> dict_keys r = dict_keys d.
Proof.
  revert r. induction d as [|[f v] d IH]; intros r H; simpl in H.
  - by inversion H.
  - destruct (Backup.dump_value v) as [j|e]; [|done].
    destruct (Backup.dump_record d) as [r'|e]; [|done].
    inversion H; subst. simpl. f_equal. by apply IH.
Qed.






(** *** Coercion *)












(** * The backup script *)

Import Capture.

Lemma with_session_unit k (body : M session unit) w :
  with_session k body w = create_session k body w.
Proof.
  unfold with_session, create_session.
  destruct (body _) as [[[]|e] s]; reflexivity.
Qed.

Lemma query_all_run af k rows o :
  query_all af k (mk_session rows [] o) = (Ok rows, mk_session rows [] o).
Proof. destruct af; reflexivity. Qed.

(** Reading a table in a session of its own: the commit has nothing to
    write. *)
Lemma read_session af k w :
  with_session k (query_all af k) w =
  match faults w with
  | true :: fs => (Raise OperationalError, mk_world (db w) (out w) fs)
  | fs => (Ok (table k (db w)), mk_world (db w) (out w) (tail fs))
  end.
Proof.
  unfold with_session. rewrite query_all_run. cbn [s_new s_rows s_out flush_rows].
  rewrite set_table_table. destruct (faults w) as [|[] fs]; reflexivity.
Qed.

Lemma capture_run af k h :
  capture af k h =
  match faults (world_of h) with
  | true :: fs =>
      (Raise OperationalError,
       mk_machine (mk_world (db (world_of h)) (out (world_of h)) fs) (files h))
  | fs =>
      json_dump (path k) (document k (table k (db (world_of h))))
        (mk_machine (mk_world (db (world_of h)) (out (world_of h)) (tail fs)) (files h))
  end.
Proof.
  destruct k; cbn [capture];
    unfold backup_variables, backup_connections, backup_pools, backup_dags;
    rewrite run_bind; unfold on_world; rewrite read_session;
    destruct (faults (world_of h)) as [|[] fs]; reflexivity.
Qed.

Lemma backup_captures af h :
  backup af h =
  (for_each (capture af) all_kinds ;;
   print "✅ DAG metadata backed up successfully for Airflow 2.1.0" ;;
   print "✅ All backups written to /tmp/*.json") h.
Proof.
  unfold backup, all_kinds. cbn [for_each capture].
  rewrite !run_bind.
  destruct (backup_variables af h) as [[[]|e] h1]; [|reflexivity].
  rewrite !run_bind.
  destruct (backup_connections af h1) as [[[]|e] h2]; [|reflexivity].
  rewrite !run_bind.
  destruct (backup_pools af h2) as [[[]|e] h3]; [|reflexivity].
  rewrite !run_bind.
  destruct (backup_dags af h3) as [[[]|e] h4]; reflexivity.
Qed.

Lemma capture_frame af k h r h' :
  capture af k h = (r, h') ->
  db (world_of h') = db (world_of h) /\
  out (world_of h') = out (world_of h) /\
  forall p, p <> path k -> files h' !! p = files h !! p.
Proof.
  rewrite capture_run. unfold json_dump.
  destruct (faults (world_of h)) as [|[] fs];
    try destruct (document _ _); intros [= <- <-]; cbn;
    repeat split; try done; intros p Hp; by rewrite lookup_insert_ne.
Qed.

Lemma captures_frame af ks h r h' :
  for_each (capture af) ks h = (r, h') ->
  db (world_of h') = db (world_of h) /\
  out (world_of h') = out (world_of h) /\
  forall p, p ∉ map path ks -> files h' !! p = files h !! p.
Proof.
  revert h. induction ks as [|k ks IH]; intros h.
  - intros [= <- <-]. done.
  - cbn [for_each]. rewrite run_bind.
    destruct (capture af k h) as [[[]|e] h1] eqn:E1;
      destruct (capture_frame _ _ _ _ _ E1) as (Hd & Ho & Hf).
    + intros E2. destruct (IH _ E2) as (Hd2 & Ho2 & Hf2).
      split; [congruence|]. split; [congruence|].
      intros p Hp. cbn in Hp. apply not_elem_of_cons in Hp as [Hp1 Hp2].
      rewrite Hf2, Hf; done.
    + intros [= <- <-]. repeat split; try done.
      intros p Hp. cbn in Hp. apply not_elem_of_cons in Hp as [Hp1 Hp2]. by apply Hf.
Qed.

(** ** What a completed backup wrote *)

Lemma capture_ok af k h h' :
  capture af k h = (Ok tt, h') ->
  exists j, document k (table k (db (world_of h))) = Ok j /\
    files h' = <[path k := Json j]> (files h) /\
    faults (world_of h') = tail (faults (world_of h)).
Proof.
  rewrite capture_run. unfold json_dump.
  destruct (faults (world_of h)) as [|[] fs]; try discriminate;
    destruct (document _ _) as [j|e]; try discriminate;
    intros [= <-]; exists j; done.
Qed.

Lemma path_inj k k' : path k = path k' -> k = k'.
Proof. destruct k, k'; intros E; try reflexivity; cbn in E; discriminate E. Qed.

Lemma captures_ok af ks h h' :
  NoDup ks ->
  for_each (capture af) ks h = (Ok tt, h') ->
  forall k, k ∈ ks ->
    exists j, document k (table k (db (world_of h))) = Ok j /\
      files h' !! path k = Some (Json j).
Proof.
  revert h. induction ks as [|k0 ks IH]; intros h Hnd E k Hk.
  - by apply not_elem_of_nil in Hk.
  - apply NoDup_cons in Hnd as [Hk0 Hnd].
    cbn [for_each] in E. rewrite run_bind in E.
    destruct (capture af k0 h) as [[[]|e] h1] eqn:E1; [|discriminate].
    destruct (capture_frame _ _ _ _ _ E1) as (Hd & _ & _).
    apply elem_of_cons in Hk as [->|Hk].
    + destruct (capture_ok _ _ _ _ E1) as (j & Hj & Hf & _).
      exists j. split; [done|].
      destruct (captures_frame _ _ _ _ _ E) as (_ & _ & Hfr).
      rewrite Hfr, Hf, lookup_insert_eq; [done|].
      intros (k' & Hp & Hin)%list_elem_of_fmap. apply path_inj in Hp as ->. done.
    + destruct (IH h1 Hnd E k Hk) as (j & Hj & Hf).
      exists j. by rewrite <- Hd.
Qed.

Lemma captures_faults af ks h h' :
  faults (world_of h) = [] ->
  for_each (capture af) ks h = (Ok tt, h') ->
  faults (world_of h') = [].
Proof.
  revert h. induction ks as [|k0 ks IH]; intros h Hf E.
  - by injection E as <-.
  - cbn [for_each] in E. rewrite run_bind in E.
    destruct (capture af k0 h) as [[[]|e] h1] eqn:E1; [|discriminate].
    destruct (capture_ok _ _ _ _ E1) as (_ & _ & _ & Hf1).
    apply (IH h1); [|done]. by rewrite Hf1, Hf.
Qed.

Lemma all_kinds_NoDup : NoDup all_kinds.
Proof. apply NoDup_ListNoDup. repeat constructor; cbn; intuition discriminate. Qed.

Lemma all_kinds_elem_of k : k ∈ all_kinds.
Proof. destruct k; unfold all_kinds; set_solver. Qed.

Lemma backup_ok_inv af h h' :
  backup af h = (Ok tt, h') ->
  exists h1, for_each (capture af) all_kinds h = (Ok tt, h1) /\
    files h' = files h1 /\ db (world_of h') = db (world_of h) /\
    faults (world_of h') = faults (world_of h1) /\
    out (world_of h') = out (world_of h) ++
      ["✅ DAG metadata backed up successfully for Airflow 2.1.0";
       "✅ All backups written to /tmp/*.json"].
Proof.
  rewrite backup_captures, run_bind.
  destruct (for_each (capture af) all_kinds h) as [[[]|e] h1] eqn:E1; [|discriminate].
  destruct (captures_frame _ _ _ _ _ E1) as (Hd & Ho & _).
  intros [= <-]. exists h1. cbn. rewrite Ho, <- app_assoc. done.
Qed.

Lemma in_tmp_lookup fl k : in_tmp fl !! snapshot_name k = fl !! path k.
Proof.
  unfold in_tmp, all_kinds. cbn [omap list_omap].
  destruct k; repeat case_match; simplify_map_eq; done.
Qed.

(** ** Reconciliation, further *)

Lemma NoDup_nodupb l : NoDup l -> nodupb l = true.
Proof.
  induction 1 as [|x l Hx _ IH]; [done|].
  cbn. rewrite IH. apply mem_not_elem_of in Hx. by rewrite Hx.
Qed.

Lemma filter_ext_elem_of {A} (P Q : A -> Prop) `{!forall x, Decision (P x)}
    `{!forall x, Decision (Q x)} (l : list A) :
  (forall x, x ∈ l -> P x <-> Q x) -> filter P l = filter Q l.
Proof.
  induction l as [|x l IH]; intros Hpq; [done|].
  assert (filter P l = filter Q l) as IH'.
  { apply IH. intros y Hy. apply Hpq. by right. }
  destruct (decide (P x)) as [Hp|Hp].
  - rewrite !filter_cons_True; [by f_equal|by apply Hpq; [left|]|done].
  - rewrite !filter_cons_False; [done| |done].
    intros Hq. apply Hp, Hpq; [left|done].
Qed.

(** The identities of the table after a series of upserts with distinct
    identities: those it had, then the new ones in order. *)
Lemma reconcile_keys k ps rows :
  Forall (plan_ok k) ps ->
  NoDup (map p_id ps) ->
  map (key_of (key_column k)) (reconcile_rows k ps rows)
  = map (key_of (key_column k)) rows
    ++ map Some (filter (fun id => Some id ∉ map (key_of (key_column k)) rows)
                        (map p_id ps)).
Proof.
  intros Hok. revert rows. induction Hok as [|p ps Hp _ IH]; intros rows Hnd.
  - cbn. by rewrite app_nil_r.
  - cbn [map] in Hnd. apply NoDup_cons in Hnd as [Hid Hnd].
    cbn [reconcile_rows fold_left]. fold (reconcile_rows k ps (upsert k p rows)).
    rewrite IH by done. rewrite upsert_keys by done.
    cbn [map]. destruct (find_row (key_column k) (p_id p) rows) as [i|] eqn:Ef.
    + rewrite filter_cons_False; [done|].
      intros Hn. apply find_row_None_keys in Hn. congruence.
    + pose proof Ef as Hn. apply find_row_None_keys in Hn.
      rewrite filter_cons_True by done. cbn [map]. rewrite <- app_assoc. cbn.
      do 3 f_equal. apply filter_ext_elem_of. intros id Hin. split.
      * intros H1 H2. apply H1. apply elem_of_app. by left.
      * intros H1 [H2|H2]%elem_of_app; [done|].
        apply list_elem_of_singleton in H2 as [= ->]. done.
Qed.

(** A new identity gets the row of the insert branch. *)
Lemma reconcile_inserted k ps p rows :
  Forall (plan_ok k) ps ->
  NoDup (map p_id ps) ->
  p ∈ ps ->
  find_row (key_column k) (p_id p) rows = None ->
  exists i, find_row (key_column k) (p_id p) (reconcile_rows k ps rows) = Some i /\
    reconcile_rows k ps rows !! i = Some (p_new p).
Proof.
  intros Hok Hnd Hin Hf.
  apply list_elem_of_split in Hin as (ps1 & ps2 & ->).
  rewrite map_app in Hnd. cbn [map] in Hnd.
  apply NoDup_app in Hnd as (Hnd1 & Hd & Hnd2).
  apply NoDup_cons in Hnd2 as [Hp2 Hnd2].
  apply Forall_app in Hok as [Hok1 Hok2].
  apply Forall_cons in Hok2 as [Hp Hok2].
  rewrite reconcile_rows_app. cbn [reconcile_rows fold_left].
  fold (reconcile_rows k ps1 rows).
  fold (reconcile_rows k ps2 (upsert k p (reconcile_rows k ps1 rows))).
  assert (find_row (key_column k) (p_id p) (reconcile_rows k ps1 rows) = None) as Hf1.
  { apply find_row_None_keys. rewrite reconcile_keys by done.
    intros [H|H]%elem_of_app.
    - apply find_row_None_keys in Hf. done.
    - apply list_elem_of_fmap in H as (id & [= <-] & H).
      apply list_elem_of_filter in H as [_ H']. apply (Hd _ H'). by left. }
  set (rows1 := reconcile_rows k ps1 rows) in *.
  assert (upsert k p rows1 = rows1 ++ [p_new p]) as Hu by (unfold upsert; by rewrite Hf1).
  assert (find_row (key_column k) (p_id p) (upsert k p rows1) = Some (length rows1)
          /\ upsert k p rows1 !! length rows1 = Some (p_new p)) as [H1 H2].
  { rewrite Hu. split.
    - apply find_row_Some. exists (p_new p). split; [|split].
      + rewrite lookup_app_r by lia. by rewrite Nat.sub_diag.
      + apply Hp.
      + intros j r' Hj Hlt. rewrite lookup_app_l in Hj by done.
        eapply (proj1 (find_row_None _ _ _) Hf1). eapply list_elem_of_lookup_2, Hj.
    - rewrite lookup_app_r by lia. by rewrite Nat.sub_diag. }
  exists (length rows1).
  eapply reconcile_preserves; eauto.
Qed.

(** Assignments that repeat what the row reads change no attribute. *)
Lemma apply_updates_attr k asg (r : row) :
  (forall f v, (f, v) ∈ asg -> v = attr r f) ->
  forall c, attr (apply_updates k asg r) c = attr r c.
Proof.
  unfold apply_updates. revert r. induction asg as [|[f v] asg IH]; intros r H c; [done|].
  cbn [fold_left fst snd].
  assert (forall c, attr (if mem f (columns k) then <[f:=v]> r else r) c = attr r c) as Hs.
  { intros c'. destruct (mem f (columns k)); [|done].
    unfold attr. destruct (decide (f = c')) as [->|Hne].
    - rewrite lookup_insert_eq. cbn. apply H. by left.
    - by rewrite lookup_insert_ne. }
  rewrite IH; [apply Hs|].
  intros f' v' Hin. rewrite Hs. apply H. by right.
Qed.

(** ** Captured documents *)

Lemma dump_records_inv l rs :
  Backup.dump_records l = Ok rs ->
  exists ds, rs = map JDict ds /\ Forall2 (fun rec d => Backup.dump_record rec = Ok d) l ds.
Proof.
  revert rs. induction l as [|rec l IH]; intros rs.
  - intros [= <-]. exists []. by split.
  - cbn [Backup.dump_records].
    destruct (Backup.dump_record rec) as [d|e] eqn:E1;
      destruct (Backup.dump_records l) as [rs'|e'] eqn:E2; try discriminate.
    intros [= <-]. destruct (IH _ eq_refl) as (ds & -> & HF).
    exists (d :: ds). split; [done|]. by constructor.
Qed.

Lemma document_records k rows j :
  k <> Variable_ ->
  document k rows = Ok j ->
  exists ds, j = JList (map JDict ds) /\
    Forall2 (fun r d => Backup.dump_record (record_of k r) = Ok d) rows ds.
Proof.
  intros Hk. unfold document, dump_list.
  destruct k; [done|..];
    (destruct (Backup.dump_records _) as [rs|e] eqn:E; [|discriminate];
     intros [= <-]; apply dump_records_inv in E as (ds & -> & HF);
     exists ds; split; [done|]; by apply Forall2_fmap_l in HF).
Qed.

(** A record that was dumped holds, under each of its keys, the JSON value
    the row reads. *)
Lemma dump_record_values rec d f v :
  Backup.dump_record rec = Ok d ->
  dict_get f rec = Some v ->
  exists j, v = VJson j /\ dict_get f d = Some j.
Proof.
  revert d. induction rec as [|[g u] rec IH]; intros d; [done|].
  cbn [Backup.dump_record dict_get].
  destruct (Backup.dump_value u) as [ju|e] eqn:Eu;
    destruct (Backup.dump_record rec) as [d'|e'] eqn:Er; try discriminate.
  intros [= <-]. cbn [dict_get]. destruct (f =? g)%string.
  - intros [= <-]. exists ju. split; [|done]. destruct u; cbn in Eu; by simplify_eq.
  - intros Hg. by apply IH.
Qed.

Lemma record_of_get k r f :
  (k = Connection \/ k = Pool) ->
  f ∈ carried k -> dict_get f (record_of k r) = Some (attr r f).
Proof.
  intros [-> | ->] Hf; unfold carried in Hf; cbn in Hf;
    repeat (apply elem_of_cons in Hf as [->|Hf]; [reflexivity|]);
    by apply not_elem_of_nil in Hf.
Qed.

Lemma record_of_keys k r :
  (k = Connection \/ k = Pool) -> dict_keys (record_of k r) = carried k.
Proof. by intros [-> | ->]. Qed.

Lemma carried_valid k r d id :
  (k = Connection \/ k = Pool) ->
  Backup.dump_record (record_of k r) = Ok d ->
  key_of (key_column k) r = Some id ->
  valid_record k (JDict d) = true /\ string_id k d = Some id /\
  forall f, f ∈ carried k -> exists j, attr r f = VJson j /\ dict_get f d = Some j.
Proof.
  intros Hk Hd Hid.
  assert (forall f, f ∈ carried k -> exists j, attr r f = VJson j /\ dict_get f d = Some j) as Hv.
  { intros f Hf. eapply dump_record_values; [done|]. by apply record_of_get. }
  assert (string_id k d = Some id) as Hs.
  { unfold string_id. destruct (Hv (key_column k)) as (j & Hj & ->); [by left|].
    unfold key_of, attr in *. destruct (r !! key_column k) as [[[]| |]|]; cbn in Hj; try done.
    all: by simplify_eq. }
  split; [|done].
  unfold valid_record. rewrite Hs.
  rewrite (dump_record_keys _ _ Hd), record_of_keys by done.
  destruct Hk as [-> | ->]; reflexivity.
Qed.

(** ** Restoring what was captured *)

Lemma carried_snapshot k rows ds :
  (k = Connection \/ k = Pool) ->
  Forall (fun r => is_Some (key_of (key_column k) r)) rows ->
  Forall2 (fun r d => Backup.dump_record (record_of k r) = Ok d) rows ds ->
  forallb (valid_record k) (map JDict ds) = true /\
  map Some (omap (record_id k) (map JDict ds)) = map (key_of (key_column k)) rows.
Proof.
  intros Hk Hkeys HF. induction HF as [|r d rows ds Hd HF IH]; [done|].
  apply Forall_cons in Hkeys as [[id Hid] Hkeys].
  destruct (IH Hkeys) as [IH1 IH2].
  destruct (carried_valid k r d id Hk Hd Hid) as (Hv & Hs & _).
  cbn [map forallb]. rewrite Hv, IH1. split; [done|].
  change (omap (record_id k) (JDict d :: map JDict ds))
    with (match record_id k (JDict d) with
          | Some y => y :: omap (record_id k) (map JDict ds)
          | None => omap (record_id k) (map JDict ds)
          end).
  cbn [record_id]. rewrite Hs. cbn [map]. by rewrite IH2, Hid.
Qed.

Lemma carried_plan_asg k d :
  (k = Connection \/ k = Pool) ->
  p_asg (plan_of k d) = map (fun f => (f, VJson (default JNull (dict_get f d)))) (required k).
Proof. by intros [-> | ->]. Qed.

Lemma carried_plan_new k d :
  (k = Connection \/ k = Pool) ->
  p_new (plan_of k d) = list_to_map (map (fun kv => (fst kv, VJson (snd kv))) d).
Proof. by intros [-> | ->]. Qed.

Lemma key_of_attr col (r : row) id : key_of col r = Some id -> attr r col = VStr id.
Proof.
  unfold key_of, attr. destruct (r !! col) as [[[]| |]|]; try done. by intros [= ->].
Qed.

(** The pass over a captured snapshot of connections or pools, on any
    store: the row of every captured identity reads as the captured row on
    the columns the snapshot carries; on the others it keeps what the
    store had for that identity, or is NULL when the identity is new. *)
Lemma carried_pass af fs k rows j w :
  (k = Connection \/ k = Pool) ->
  keyed k rows ->
  document k rows = Ok j ->
  fs !! snapshot_name k = Some (Json j) ->
  head (faults w) <> Some true ->
  exists w', Restore.pass af fs k w = (Ok tt, w') /\
    map (key_of (key_column k)) (table k (db w'))
    = map (key_of (key_column k)) (table k (db w))
      ++ filter (fun x => x ∉ map (key_of (key_column k)) (table k (db w)))
           (map (key_of (key_column k)) rows) /\
    forall r id, r ∈ rows -> key_of (key_column k) r = Some id ->
      exists i r', find_row (key_column k) id (table k (db w')) = Some i /\
        table k (db w') !! i = Some r' /\
        (forall f, f ∈ carried k -> attr r' f = attr r f) /\
        (forall c, c ∉ carried k ->
           attr r' c = match find_row (key_column k) id (table k (db w)) with
                       | Some i0 => from_option (fun r0 => attr r0 c) VNone
                                      (table k (db w) !! i0)
                       | None => VNone
                       end).
Proof.
  intros Hk [Hkeys Hnd] Hdoc Hfs Hfl.
  assert (k <> Variable_) as Hkv by (by destruct Hk as [-> | ->]).
  destruct (document_records _ _ _ Hkv Hdoc) as (ds & -> & HF).
  destruct (carried_snapshot k rows ds Hk Hkeys HF) as [Hval Hids].
  set (cs := map JDict ds) in *.
  set (ps := map (record_plan k) cs).
  assert (map p_id ps = omap (record_id k) cs) as Hpids by (by apply record_plans_ids).
  assert (NoDup (map p_id ps)) as Hpnd.
  { rewrite Hpids. apply (NoDup_fmap_1 Some).
    change (NoDup (map Some (omap (record_id k) cs))). by rewrite Hids. }
  assert (Forall (plan_ok k) ps) as Hok by (by apply record_plans_ok).
  destruct (session_pass_valid af fs k cs w Hkv Hfs Hval) as (o & Hrun & _); [|done|].
  { intros _. apply fresh_ok_nodup; [done|]. intros p _. apply not_elem_of_nil. }
  eexists. split; [exact Hrun|]. cbn [db]. rewrite table_set_table_eq.
  fold ps. split.
  { rewrite reconcile_keys by done. f_equal. rewrite Hpids.
    rewrite <- Hids. generalize (omap (record_id k) cs). intros l.
    induction l as [|x l IH]; [done|]. cbn [map].
    destruct (decide (Some x ∈ map (key_of (key_column k)) (table k (db w)))).
    - by rewrite !filter_cons_False by naive_solver.
    - rewrite !filter_cons_True by done. cbn [map]. by rewrite IH. }
  intros r id Hr Hid.
  apply list_elem_of_lookup_1 in Hr as [n Hn].
  destruct (Forall2_lookup_l _ _ _ _ _ HF Hn) as (d & Hdn & Hd).
  destruct (carried_valid k r d id Hk Hd Hid) as (Hv & Hs & Hget).
  assert (JDict d ∈ cs) as Hc.
  { unfold cs. apply list_elem_of_fmap. exists d. split; [done|].
    by eapply list_elem_of_lookup_2. }
  assert (record_plan k (JDict d) ∈ ps) as Hp by (by apply record_plan_elem_of).
  change (record_plan k (JDict d)) with (plan_of k d) in Hp.
  assert (p_id (plan_of k d) = id) as Hpid.
  { apply (record_id_plan k (JDict d)); [done|]. exact Hs. }
  destruct (find_row (key_column k) id (table k (db w))) as [i0|] eqn:Ef.
  - pose proof Ef as Ef'. apply find_row_Some in Ef' as (r0 & Hr0 & Hk0 & _).
    destruct (reconcile_exact k ps (plan_of k d) (table k (db w)) i0 r0) as [H1 H2];
      try done; [by rewrite Hpid|].
    rewrite Hpid in H1. exists i0, (apply_updates k (p_asg (plan_of k d)) r0).
    split; [done|]. split; [done|].
    rewrite Hr0. cbn [from_option]. rewrite carried_plan_asg by done. split.
    + intros f [->|Hf]%elem_of_cons.
      * unfold attr. rewrite apply_updates_other.
        -- fold (attr r0 (key_column k)). fold (attr r (key_column k)).
           by rewrite (key_of_attr _ _ _ Hk0), (key_of_attr _ _ _ Hid).
        -- rewrite map_map. cbn [fst]. rewrite map_id.
           apply key_column_not_required. by destruct Hk as [-> | ->].
      * destruct (Hget f) as (jf & Hjf & Hdf); [by right|].
        unfold attr at 1.
        rewrite (apply_updates_agrees k _ r0 f (VJson jf)).
        -- by rewrite Hjf.
        -- rewrite map_map. cbn [fst]. rewrite map_id. apply required_NoDup.
        -- apply list_elem_of_fmap. exists f. split; [|done]. by rewrite Hdf.
        -- by apply required_columns.
    + intros c Hc'. unfold attr at 1. rewrite apply_updates_other; [done|].
      rewrite map_map. cbn [fst]. rewrite map_id.
      intros Hin. apply Hc'. by right.
  - destruct (reconcile_inserted k ps (plan_of k d) (table k (db w))) as (i & H1 & H2);
      try done; [by rewrite Hpid|].
    rewrite Hpid in H1. exists i, (p_new (plan_of k d)).
    split; [done|]. split; [done|].
    rewrite carried_plan_new by done. split.
    + intros f Hf. destruct (Hget f Hf) as (jf & Hjf & Hdf).
      unfold attr at 1. rewrite lookup_list_to_map_dict, dict_get_map, Hdf. by rewrite Hjf.
    + intros c Hc'. unfold attr. rewrite lookup_list_to_map_dict, dict_get_map.
      destruct (dict_get c d) as [jc|] eqn:Ec; [|done].
      exfalso. apply Hc'. apply dict_get_Some_keys in Ec.
      by rewrite (dump_record_keys _ _ Hd), record_of_keys in Ec.
Qed.

(** ** The variables, captured and restored *)







(** * The backup script and the round trip *)

(** X1.  The backup only reads the store and only writes its four files:
    whatever the outcome of the run, the store is as it was and every
    other path holds what it held. *)
Theorem backup_reads_store_writes_four_files af h :
  db (world_of (backup af h).2) = db (world_of h) /\
  forall p,
    p ∉ ["/tmp/variables_backup.json"; "/tmp/connections_backup.json";
         "/tmp/pools_backup.json"; "/tmp/dag_models_backup.json"] ->
    files (backup af h).2 !! p = files h !! p.
Proof.
  rewrite backup_captures, run_bind.
  destruct (for_each (capture af) all_kinds h) as [[[]|e] h1] eqn:E1;
    destruct (captures_frame _ _ _ _ _ E1) as (Hd & _ & Hf); split; done.
Qed.

(** X2.  When the store stays available and every captured attribute is a
    JSON value, the backup completes: it writes the document of each of the
    four tables to its file in [/tmp], prints its two lines and leaves the
    store as it was. *)
Theorem backup_completes af h (doc : kind -> json) :
  faults (world_of h) = [] ->
  (forall k, document k (table k (db (world_of h))) = Ok (doc k)) ->
  backup af h =
  (Ok tt,
   mk_machine
     (mk_world (db (world_of h))
        (out (world_of h) ++
           ["✅ DAG metadata backed up successfully for Airflow 2.1.0";
            "✅ All backups written to /tmp/*.json"]) [])
     (<["/tmp/dag_models_backup.json" := Json (doc DagModel)]>
        (<["/tmp/pools_backup.json" := Json (doc Pool)]>
           (<["/tmp/connections_backup.json" := Json (doc Connection)]>
              (<["/tmp/variables_backup.json" := Json (doc Variable_)]> (files h)))))).
Proof.
  intros Hf Hdoc. rewrite backup_captures. unfold all_kinds. cbn [for_each].
  destruct h as [[st o fl] fsys]. cbn [world_of faults db out files] in *. subst fl.
  rewrite !run_bind, capture_run. cbn [world_of faults db out files tail].
  rewrite (Hdoc Variable_). cbn [json_dump world_of files].
  rewrite !run_bind, capture_run. cbn [world_of faults db out files tail].
  rewrite (Hdoc Connection). cbn [json_dump world_of files].
  rewrite !run_bind, capture_run. cbn [world_of faults db out files tail].
  rewrite (Hdoc Pool). cbn [json_dump world_of files].
  rewrite !run_bind, capture_run. cbn [world_of faults db out files tail].
  rewrite (Hdoc DagModel). cbn [json_dump world_of files].
  unfold mret, M_ret, print. rewrite run_bind. cbn [world_of db out faults files emit machine_console world_console].
  by rewrite <- app_assoc.
Qed.

Lemma backup_files af h h' k :
  backup af h = (Ok tt, h') ->
  exists j, document k (table k (db (world_of h))) = Ok j /\
    in_tmp (files h') !! snapshot_name k = Some (Json j).
Proof.
  intros (h1 & Hcap & Hfiles & _)%backup_ok_inv.
  destruct (captures_ok af all_kinds h h1 all_kinds_NoDup Hcap k (all_kinds_elem_of k))
    as (j & Hj & Hf).
  exists j. split; [done|]. by rewrite in_tmp_lookup, Hfiles.
Qed.


(** X4.  Restoring the connections or the pools onto the store they were
    captured from changes nothing that can be read: the table keeps its
    rows, in place, and every attribute of every row reads as before. *)
Theorem backup_restore_same_store af af' k h h' :
  (k = Connection \/ k = Pool) ->
  faults (world_of h) = [] ->
  backup af h = (Ok tt, h') ->
  keyed k (table k (db (world_of h))) ->
  exists w', Restore.pass af' (in_tmp (files h')) k (world_of h') = (Ok tt, w') /\
    length (table k (db w')) = length (table k (db (world_of h))) /\
    forall i r, table k (db (world_of h)) !! i = Some r ->
      exists r', table k (db w') !! i = Some r' /\ forall c, attr r' c = attr r c.
Proof.
  intros Hk Hf Hrun Hkeyed.
  destruct (backup_files af h h' k Hrun) as (j & Hdoc & Hfile).
  pose proof Hrun as (h1 & Hcap & _ & Hdb & Hfl & _)%backup_ok_inv.
  apply captures_faults in Hcap; [|done]. rewrite Hcap in Hfl.
  set (rows := table k (db (world_of h))) in *.
  destruct (carried_pass af' (in_tmp (files h')) k rows j (world_of h') Hk Hkeyed Hdoc Hfile)
    as (w' & Hpass & Hkeys & Hrows); [by rewrite Hfl|].
  rewrite Hdb in Hkeys, Hrows. fold rows in Hkeys, Hrows.
  rewrite filter_none, app_nil_r in Hkeys by (intros x Hx Hn; done).
  exists w'. split; [done|]. split.
  { rewrite <- (length_map (key_of (key_column k))), Hkeys. apply length_map. }
  intros i r Hi. destruct Hkeyed as [Hsome Hnd].
  destruct (proj1 (Forall_lookup _ _) Hsome i r Hi) as [id Hid].
  destruct (Hrows r id) as (i' & r' & Hfind & Hr' & Hcar & Hoth);
    [by eapply list_elem_of_lookup_2|done|].
  assert (find_row (key_column k) id rows = Some i') as Hfind0.
  { rewrite <- Hfind. symmetry. by apply find_row_keys. }
  assert (i' = i) as ->.
  { apply find_row_Some in Hfind0 as (r0 & Hr0 & Hk0 & _).
    eapply NoDup_lookup; [exact Hnd| |].
    - rewrite list_lookup_fmap, Hr0. cbn. by rewrite Hk0.
    - rewrite list_lookup_fmap, Hi. cbn. by rewrite Hid. }
  exists r'. split; [done|]. intros c.
  destruct (decide (c ∈ carried k)) as [Hc|Hc]; [by apply Hcar|].
  rewrite (Hoth c Hc), Hfind0, Hi. done.
Qed.


(** * The restore script, further *)

Lemma passes_missing_frame af fs ks w k :
  fs !! snapshot_name k = None ->
  table k (db (for_each (Restore.pass af fs) ks w).2) = table k (db w).
Proof.
  intros Hk. revert w. induction ks as [|k0 ks IH]; intros w; [done|].
  cbn [for_each]. rewrite run_bind.
  destruct (Restore.pass af fs k0 w) as [[[]|e] w1] eqn:E1.
  - rewrite IH. destruct (decide (k0 = k)) as [->|Hne].
    + rewrite pass_missing in E1 by done. by injection E1 as <-.
    + by eapply pass_frame.
  - cbn. destruct (decide (k0 = k)) as [->|Hne].
    + rewrite pass_missing in E1 by done. discriminate.
    + by eapply pass_frame.
Qed.

(** X6.  A kind whose file is absent is left alone: whatever the other
    files hold and however the run ends, its table is as it was. *)
Theorem restore_skips_missing_kind af fs w k :
  fs !! snapshot_name k = None ->
  table k (db (Restore.restore af fs w).2) = table k (db w).
Proof.
  intros Hk. rewrite restore_passes, run_bind.
  pose proof (passes_missing_frame af fs all_kinds w k Hk) as H.
  destruct (for_each (Restore.pass af fs) all_kinds w) as [[[]|e] w1]; exact H.
Qed.



Lemma variables_pass_run af fs j w :
  fs !! snapshot_name Variable_ = Some (Json j) ->
  Restore.pass af fs Variable_ w =
  (kvs ← lift (items j);
   for_each (fun kv => Variable_set (fst kv) (snd kv)) kvs;;
   print (done_line Variable_)) w.
Proof.
  intros Hfs. cbn [Restore.pass snapshot_name] in *. unfold Restore.restore_variables.
  unfold os_path_exists, json_load. rewrite Hfs.
  rewrite bool_decide_eq_true_2 by eauto. reflexivity.
Qed.

(** X9.  A document of the wrong type stops its pass before anything is
    done: the variables pass raises [AttributeError] on anything but a
    dict, the other passes raise [TypeError] on a value that is not a list
    (a number, a boolean, [null], a dict or a string that is not empty);
    nothing is printed and the store is as it was. *)
Theorem wrong_shape_raises af fs k j w :
  fs !! snapshot_name k = Some (Json j) ->
  wrong_shape k j = true ->
  Restore.pass af fs k w = (Raise (shape_error k), w).
Proof.
  intros Hfs Hw. destruct w as [st o fl]. destruct (decide (k = Variable_)) as [->|Hk].
  - rewrite (variables_pass_run af fs j) by done.
    destruct j as [| | | | |[|]]; try discriminate; reflexivity.
  - rewrite session_pass_run with (j := j) by done.
    rewrite run_bind. unfold create_session, session_body.
    destruct k; [done|..];
      (destruct j as [| | |[|a s]|[|c l]|[|[k1 v1] d]]; try discriminate; reflexivity).
Qed.

(** X10.  An empty document is restored to nothing: the pass completes,
    prints its success line and leaves the store as it was.  For the kinds
    restored through a session this holds for [[]] and for the values that
    iterate to nothing; the session still commits, so the store has to be
    available. *)
Theorem empty_document_restores_nothing af fs k j w :
  fs !! snapshot_name k = Some (Json j) ->
  empty_document k j = true ->
  head (faults w) <> Some true ->
  Restore.pass af fs k w =
  (Ok tt,
   mk_world (db w) (out w ++ [done_line k])
            (match k with Variable_ => faults w | _ => tail (faults w) end)).
Proof.
  intros Hfs He Hfl. destruct w as [st o fl]. destruct (decide (k = Variable_)) as [->|Hk].
  - rewrite (variables_pass_run af fs j) by done.
    destruct j as [| | | | |[|]]; try discriminate; reflexivity.
  - rewrite session_pass_run with (j := j) by done.
    rewrite run_bind. unfold create_session, session_body. cbn [faults] in *.
    destruct k; [done|..];
      (destruct j as [| | |[|a s]|[|c l]|[|[k1 v1] d]]; try discriminate;
       destruct fl as [|[] fl]; try done; destruct st; reflexivity).
Qed.

(** ** What a pass prints *)






(** * Witnesses and counterexamples *)

End Theory.

Import Capture.

(** The inputs are run on CPython 3.7 to 3.10. *)
Section Witnesses.
#[local] Existing Instance cpython37.

(** An empty working directory and an empty store. *)
Lemma C6_no_files_witness :
  Restore.restore false ∅ Sample.fresh =
  (Ok tt,
   mk_world Sample.empty_store
     ["⚠️ variables_backup.json not found";
      "⚠️ connections_backup.json not found";
      "⚠️ pools_backup.json not found";
      "⚠️ dag_models_backup.json not found";
      "🎉 Restore complete!"]
     []).
Proof.
  apply (C6_no_files_no_change false ∅ Sample.fresh).
  intros k. apply lookup_empty.
Defined.

(** C9, as stated, fails: with a variables file that is not JSON the run
    ends in [JSONDecodeError] and the marker is never printed. *)
Lemma C9_marker_not_printed :
  let run := Restore.restore false (Sample.one_file Variable_ NotJson) Sample.fresh in
  fst run = Raise JSONDecodeError /\ Restore.complete_marker ∉ out (snd run).
Proof.
  split; [reflexivity|]. vm_compute. apply not_elem_of_nil.
Qed.



(** A pools file whose second record is [null]: the pass raises after the
    first record was added, and the store is as before. *)
Lemma C7_session_kinds_witness :
  let fs := Sample.one_file Pool (Json (JList [Sample.pool_record "etl" 4; JNull])) in
  db (snd (Restore.pass false fs Pool Sample.fresh)) = Sample.empty_store.
Proof.
  intros fs.
  pose proof (C7_session_kinds_atomic false fs Pool Sample.fresh) as H.
  destruct H as [H _]; [discriminate|].
  destruct (Restore.pass false fs Pool Sample.fresh) as [[[]|e] w'] eqn:Hp.
  - vm_compute in Hp. discriminate Hp.
  - exact H.
Defined.

(** C7, as stated, fails for the variables: if the store becomes
    unavailable at the second of two variables, the first one stays
    written, so the pass neither committed as a whole nor rolled back. *)
Lemma C7_variables_not_atomic :
  let fs := Sample.one_file Variable_ (Json (JDict [("a", JStr "1"); ("b", JStr "2")])) in
  let w := mk_world Sample.empty_store [] [false; true] in
  fst (Restore.restore false fs w) = Raise OperationalError /\
  map (fun r => attr r "key") (variable (db (snd (Restore.restore false fs w)))) = [VStr "a"] /\
  variable (db w) = [].
Proof. vm_compute. repeat split. Qed.









Lemma backup_reads_store_writes_four_files_witness :
  db (world_of (backup false Stock.before).2) = Stock.store_in_use /\
  files (backup false Stock.before).2 !! "/tmp/notes.txt" = Some NotJson.
Proof.
  destruct (backup_reads_store_writes_four_files false Stock.before) as [Hd Hf].
  split; [exact Hd|]. rewrite Hf; [reflexivity|].
  apply (bool_decide_unpack _). vm_compute. exact I.
Defined.

Lemma backup_completes_witness :
  (backup false Stock.before).1 = Ok tt /\
  files (backup false Stock.before).2 !! "/tmp/pools_backup.json"
  = Some (Json (JList [JDict [("pool", JStr "default_pool"); ("slots", JInt 128);
                              ("description", JStr "Default pool")]])) /\
  files (backup false Stock.before).2 !! "/tmp/variables_backup.json"
  = Some (Json (JDict [("env", JStr "prod"); ("owner", JNull)])).
Proof.
  pose (doc := fun k => match document k (table k Stock.store_in_use) with
                        | Ok j => j
                        | Raise _ => JNull
                        end).
  assert (forall k, document k (table k (db (world_of Stock.before))) = Ok (doc k)) as Hdoc.
  { intros k. destruct k; vm_compute; reflexivity. }
  rewrite (backup_completes false Stock.before doc eq_refl Hdoc).
  split; [reflexivity|]. split; vm_compute; reflexivity.
Defined.


Lemma backup_restore_same_store_witness :
  let h' := (backup false Stock.before).2 in
  exists w' r',
    Restore.pass false (in_tmp (files h')) Pool (world_of h') = (Ok tt, w') /\
    length (slot_pool (db w')) = 1 /\
    slot_pool (db w') !! 0 = Some r' /\
    attr r' "id" = VJson (JInt 1) /\
    attr r' "slots" = VJson (JInt 128).
Proof.
  intros h'.
  destruct (backup_restore_same_store false false Pool Stock.before h')
    as (w' & Hpass & Hlen & Hrows).
  - right. reflexivity.
  - reflexivity.
  - vm_compute. reflexivity.
  - apply (bool_decide_unpack _). vm_compute. exact I.
  - destruct (Hrows 0 Stock.default_pool eq_refl) as (r' & Hrow & Hattr).
    exists w', r'. split; [exact Hpass|]. split; [exact Hlen|]. split; [exact Hrow|].
    split; rewrite Hattr; reflexivity.
Defined.


Lemma restore_skips_missing_kind_witness :
  let fs := Sample.one_file Pool (Json (JList [Sample.pool_record "etl" 4; JNull])) in
  (Restore.restore false fs Sample.stocked).1 = Raise TypeError /\
  connection (db (Restore.restore false fs Sample.stocked).2) = [Sample.old_conn].
Proof.
  intros fs. split; [vm_compute; reflexivity|].
  apply (restore_skips_missing_kind false fs Sample.stocked Connection). reflexivity.
Defined.



Lemma wrong_shape_raises_witness :
  let fs := Sample.one_file Connection (Json (JDict [("db1", JStr "postgres://db1")])) in
  Restore.pass false fs Connection Sample.stocked = (Raise TypeError, Sample.stocked).
Proof.
  intros fs.
  apply (wrong_shape_raises false fs Connection (JDict [("db1", JStr "postgres://db1")])
           Sample.stocked); reflexivity.
Defined.

Lemma empty_document_restores_nothing_witness :
  let fs := Sample.one_file DagModel (Json (JList [])) in
  Restore.pass false fs DagModel Sample.stocked
  = (Ok tt, mk_world (db Sample.stocked)
                     ["✅ DAG metadata restored from dag_models_backup.json"] []).
Proof.
  intros fs.
  apply (empty_document_restores_nothing false fs DagModel (JList []) Sample.stocked).
  - reflexivity.
  - reflexivity.
  - discriminate.
Defined.


End Witnesses.
